(** * GAIL reward provider: discriminator network and reward provider

  A shallow embedding of
  [mlagents/trainers/torch/components/reward_providers/gail_reward_provider.py].

  Conventions of the embedding.
  - A torch float is a real number: tensors are lists (1-D) and lists of
    rows (2-D) of [R], arithmetic is exact.  Rounding is not modelled;
    bounds on estimates and their means are stated closed, as rounding to
    nearest keeps them.  Where exact arithmetic decides a question the other
    way than the tensors do, the strict growth of the reward, the question
    is settled in [Binary32], the reward of [evaluate] in the binary32
    arithmetic of a default torch tensor.
  - Tensor shapes are torch's precondition.  Elementwise operations pair
    entries positionally; where torch would raise on mismatching shapes the
    operations below are still total, and statements that depend on shapes
    carry the agreement as a hypothesis.
  - The process-wide pseudo random generator is explicit state, threaded
    through every function that draws from it.
  - [self] is explicit state as well; a Python method is a computation in a
    state-and-exception monad over its object and the generator.
  - Classes and functions imported from other modules (network body, linear
    layers, action flattener, demonstration loader, buffer sampling, Adam,
    reverse-mode differentiation) are fields of [Collaborators]. *)

From Stdlib Require Import Reals Lra ZArith FunctionalExtensionality.
From Stdlib Require SpecFloat.
From stdpp Require Import base list gmap strings.

Local Open Scope R_scope.

(** ** Tensors and the random generator *)

Module Torch.

Abbreviation Tensor1 := (list R).
Abbreviation Tensor2 := (list (list R)).

Definition Rsum (v : Tensor1) : R := foldr Rplus 0 v.

(** [t.mean()] of a 1-D tensor. *)
Definition mean1 (v : Tensor1) : R := Rsum v / INR (length v).

(** [t.mean()] of a 2-D tensor: the sum of all entries over their number. *)
Definition mean2 (t : Tensor2) : R := mean1 (concat t).

(** [torch.sum(t, dim=1)]. *)
Definition sum_dim1 (t : Tensor2) : Tensor1 := map Rsum t.

Definition tmap (f : R → R) (t : Tensor2) : Tensor2 := map (map f) t.

(** Elementwise binary operation on two tensors of one shape. *)
Definition tzip (f : R → R → R) (a b : Tensor2) : Tensor2 :=
  zip_with (zip_with f) a b.

(** Elementwise binary operation of a 2-D tensor and a 1-D tensor that is
    broadcast along dimension 0. *)
Definition tzip_row (f : R → R → R) (a : Tensor2) (v : Tensor1) : Tensor2 :=
  map (fun row => zip_with f row v) a.

Definition tzip_row_l (f : R → R → R) (v : Tensor1) (a : Tensor2) : Tensor2 :=
  map (fun row => zip_with f v row) a.

Definition tadd := tzip Rplus.
Definition tmul := tzip Rmult.

Definition tsub := tzip Rminus.

(** [c * t], [t * c], [c - t] and [t ** 2] for a Python scalar [c]. *)
Definition smul (c : R) : Tensor2 → Tensor2 := tmap (Rmult c).
Definition muls (t : Tensor2) (c : R) : Tensor2 := tmap (fun x => x * c) t.
Definition rsub (c : R) : Tensor2 → Tensor2 := tmap (Rminus c).
Definition square : Tensor2 → Tensor2 := tmap (fun x => x ^ 2).

(** [torch.nn.Sequential] of layers that act on each row. *)
Definition Sequential (layers : list (list R → list R)) (x : Tensor2) : Tensor2 :=
  map (fun row => foldl (fun r layer => layer r) row layers) x.

(** [torch.cat(ts, dim=1)]: the rows of the tensors, joined. *)
Definition cat_dim1 (ts : list Tensor2) : Tensor2 :=
  match ts with
  | [] => []
  | t :: ts' => foldl (zip_with app) t ts'
  end.

(** [t.squeeze(dim=1)] of an (N,1) tensor. *)
Definition squeeze_dim1 (t : Tensor2) : Tensor1 := map (hd 0) t.

Definition shape (t : Tensor2) : nat * nat := (length t, length (hd [] t)).

Definition sigmoid (x : R) : R := 1 / (1 + exp (- x)).

(** [b] used as a number, as in [z_sigma * use_vail_noise]. *)
Definition of_bool (b : bool) : R := if b then 1 else 0.

(** The generator: the uniform and the standard normal variates it is going
    to produce, and how many have been consumed. *)
Record Generator := mkGenerator {
  uniform : nat → R;
  gaussian : nat → R;
  offset : nat
}.

Definition advance (n : nat) (g : Generator) : Generator :=
  {| uniform := uniform g; gaussian := gaussian g; offset := (offset g + n)%nat |}.

(** A tensor of the given shape filled in row-major order from [src]. *)
Definition fill (src : nat → R) (start : nat) (sh : nat * nat) : Tensor2 :=
  map (fun i => map (fun j => src (start + i * snd sh + j)%nat) (seq 0 (snd sh)))
      (seq 0 (fst sh)).

(** [torch.rand(shape)]. *)
Definition rand (sh : nat * nat) (g : Generator) : Tensor2 * Generator :=
  (fill (uniform g) (offset g) sh, advance (fst sh * snd sh) g).

(** [torch.normal(mean, std)] for a 2-D [mean] and a 1-D [std] broadcast
    along dimension 0: a standard normal tensor of the shape of [mean] is
    drawn, multiplied by [std] and added to [mean]; entry (i,j) of the
    result is [z i j * std j + mean i j]. *)
Definition normal (mean_ : Tensor2) (std : Tensor1) (g : Generator)
  : Tensor2 * Generator :=
  let cols := snd (shape mean_) in
  (imap (fun i row =>
           imap (fun j m =>
                   gaussian g (offset g + i * cols + j)%nat * nth j std 0 + m) row)
        mean_,
   advance (fst (shape mean_) * cols) g).
Arguments normal : simpl never.

End Torch.

Import Torch.

(** ** Exceptions and the method monad *)

Inductive Exn : Type :=
| AttributeError (name : string)
| TypeError (what : string).

Inductive Result (A : Type) : Type :=
| Ok (a : A)
| Raise (e : Exn).
Arguments Ok {A} a.
Arguments Raise {A} e.

(** A method of an object of type [S]: it reads and writes [self], draws from
    the generator, and returns or raises. *)
Definition M (S A : Type) : Type := S → Generator → Result (A * S * Generator).

Definition ret {S A} (a : A) : M S A := fun s g => Ok (a, s, g).

Definition bind {S A B} (c : M S A) (k : A → M S B) : M S B :=
  fun s g =>
    match c s g with
    | Ok (a, s', g') => k a s' g'
    | Raise e => Raise e
    end.

Definition raise {S A} (e : Exn) : M S A := fun _ _ => Raise e.

(** Read an attribute of [self]. *)
Definition gets {S A} (f : S → A) : M S A := fun s g => Ok (f s, s, g).

(** [self] itself. *)
Definition self_ {S} : M S S := fun s g => Ok (s, s, g).

(** Assign to [self]. *)
Definition modify {S} (f : S → S) : M S unit := fun s g => Ok (tt, f s, g).

(** Draw from the generator. *)
Definition draw {S A} (f : Generator → A * Generator) : M S A :=
  fun s g => let (a, g') := f g in Ok (a, s, g').

(** The object and the generator as they are now, for a closure that re-runs
    a computation from this point. *)
Definition snapshot {S} : M S (S * Generator) := fun s g => Ok ((s, g), s, g).

(** Read an attribute that exists only on some objects. *)
Definition attr {S A} (name : string) (f : S → option A) : M S A :=
  fun s g =>
    match f s with
    | Some a => Ok (a, s, g)
    | None => Raise (AttributeError name)
    end.

(** Use an [Optional] value where a tensor is needed. *)
Definition unwrap {S A} (e : Exn) (o : option A) : M S A :=
  match o with
  | Some a => ret a
  | None => raise e
  end.

(** Run a method of the attribute selected by [proj]; the attribute is an
    object that the method mutates in place, so it is stored back. *)
Definition on_attr {S T A} (proj : S → T) (inj : T → S → S) (c : M T A) : M S A :=
  fun s g =>
    match c (proj s) g with
    | Ok (a, t', g') => Ok (a, inj t' s, g')
    | Raise e => Raise e
    end.

(** The value a computation returns, for closures over a forward pass. *)
Definition value_or {S A} (d : A) (r : Result (A * S * Generator)) : A :=
  match r with
  | Ok (a, _, _) => a
  | Raise _ => d
  end.

Notation "'let*' x ':=' c 'in' k" := (bind c (fun x => k))
  (at level 10, x pattern, c at level 100, k at level 200).

(** ** Data model *)

Inductive ActionType : Type := DISCRETE | CONTINUOUS.

Record BehaviorSpec := mkBehaviorSpec {
  observation_shapes : list (list nat);
  action_type : ActionType;
  action_shape : list nat
}.

Module Settings.

Record GAILSettings := mkGAILSettings {
  gamma : R;
  strength : R;
  encoding_size : nat;
  learning_rate : R;
  use_actions : bool;
  use_vail : bool;
  demo_path : string
}.

Inductive EncoderType : Type := SIMPLE | NATURE_CNN | RESNET.

Record NetworkSettings := mkNetworkSettings {
  normalize : bool;
  hidden_units : nat;
  num_layers : nat;
  vis_encode_type : EncoderType;
  memory : option (nat * nat)
}.

End Settings.

Inductive Initialization : Type :=
| Zero | XavierGlorotNormal | XavierGlorotUniform | KaimingHeNormal | KaimingHeUniform.

(** A mini batch: the columns this file reads, one row per experience. *)
Record AgentBuffer := mkAgentBuffer {
  vector_obs : Tensor2;
  visual_obs : list Tensor2;
  actions : Tensor2;
  done : Tensor2
}.

(** A linear layer, as the function it applies to each row of its input. *)
Abbreviation Layer := (list R → list R).

(** The observation encoder ([NetworkBody]): the number of its visual encoders
    and its forward pass on the vector inputs and the visual inputs. *)
Record NetworkBody := mkNetworkBody {
  visual_encoders : nat;
  body_forward : list Tensor2 → list Tensor2 → Tensor2
}.

Record ActionFlattener := mkActionFlattener {
  flattened_size : nat;
  flattener_forward : Tensor2 → Tensor2
}.

(** The tensors the optimizer updates ([requires_grad=True]). *)
Record VailWeights := mkVailWeights {
  w_z_sigma : Tensor1;
  w_z_mu_layer : Layer
}.

Record Weights := mkWeights {
  w_state_encoder : NetworkBody;
  w_encoder : Layer * Layer;
  w_vail : option VailWeights;
  w_estimator : Layer
}.

(** What this file imports and calls.  [Adam] is the optimizer's state and
    [Base] the attributes [BaseRewardProvider.__init__] sets. *)
Record Collaborators (Adam Base : Type) := mkCollaborators {
  NetworkBody_init :
    list (list nat) → Settings.NetworkSettings → Generator → NetworkBody * Generator;
  ActionFlattener_init : BehaviorSpec → ActionFlattener;
  (* linear_layer(input_size, output_size, kernel_init=..., kernel_gain=...) *)
  linear_layer :
    nat → nat → option Initialization → option R → Generator → Layer * Generator;
  Swish : R → R;
  (* torch.autograd.grad(f(x), x)[0] *)
  autograd_grad : (Tensor2 → R) → Tensor2 → Tensor2;
  (* demo_to_buffer(file_path, sequence_length, expected_behavior_spec) *)
  demo_to_buffer : string → nat → BehaviorSpec → BehaviorSpec * AgentBuffer;
  (* buffer.sample_mini_batch(batch_size, sequence_length) *)
  sample_mini_batch : AgentBuffer → nat → nat → Generator → AgentBuffer * Generator;
  num_experiences : AgentBuffer → nat;
  BaseRewardProvider_init : BehaviorSpec → Settings.GAILSettings → Base;
  (* torch.optim.Adam(params, lr=...) *)
  Adam_init : Weights → R → Adam;
  (* zero_grad(); loss.backward(); step(), for the loss as a function of the
     weights *)
  Adam_step : Adam → Weights → (Weights → R) → Adam * Weights
}.
Arguments NetworkBody_init {Adam Base} _.
Arguments ActionFlattener_init {Adam Base} _.
Arguments linear_layer {Adam Base} _.
Arguments Swish {Adam Base} _.
Arguments autograd_grad {Adam Base} _.
Arguments demo_to_buffer {Adam Base} _.
Arguments sample_mini_batch {Adam Base} _.
Arguments num_experiences {Adam Base} _.
Arguments BaseRewardProvider_init {Adam Base} _.
Arguments Adam_init {Adam Base} _.
Arguments Adam_step {Adam Base} _.

(** ** The discriminator network *)

Module DiscriminatorNetwork.

Definition gradient_penalty_weight : R := 10.0.
Definition z_size : nat := 128.
Definition alpha : R := 0.0005.
Definition mutual_information : R := 0.5.
Definition EPSILON : R := 1e-7.
Definition initial_beta : R := 0.0.

(** The attributes that exist only when [settings.use_vail] holds. *)
Record VailAttributes := mkVail {
  z_sigma : Tensor1;
  z_mu_layer : Layer;
  beta : R
}.

Record t := mk {
  _policy_specs : BehaviorSpec;
  use_vail : bool;
  _settings : Settings.GAILSettings;
  _state_encoder : NetworkBody;
  _action_flattener : ActionFlattener;
  (* the two linear layers of Sequential(linear, Swish, linear, Swish) *)
  encoder : Layer * Layer;
  vail : option VailAttributes;
  (* the linear layer of Sequential(linear, Sigmoid) *)
  estimator : Layer
}.

(** [self.beta.data = b]. *)
Definition set_beta (b : R) (self : t) : t :=
  {| _policy_specs := _policy_specs self;
     use_vail := use_vail self;
     _settings := _settings self;
     _state_encoder := _state_encoder self;
     _action_flattener := _action_flattener self;
     encoder := encoder self;
     vail := option_map (fun v => mkVail (z_sigma v) (z_mu_layer v) b) (vail self);
     estimator := estimator self |}.

(** [self.parameters()], the tensors that receive a gradient; [beta] is a
    parameter with [requires_grad=False] and stays out. *)
Definition parameters (self : t) : Weights :=
  {| w_state_encoder := _state_encoder self;
     w_encoder := encoder self;
     w_vail := option_map (fun v => mkVailWeights (z_sigma v) (z_mu_layer v)) (vail self);
     w_estimator := estimator self |}.

(** The optimizer writes the updated tensors in place: attributes are
    neither created nor deleted, and [beta] keeps its value. *)
Definition load_weights (w : Weights) (self : t) : t :=
  {| _policy_specs := _policy_specs self;
     use_vail := use_vail self;
     _settings := _settings self;
     _state_encoder := w_state_encoder w;
     _action_flattener := _action_flattener self;
     encoder := w_encoder w;
     vail :=
       match vail self with
       | Some v =>
           match w_vail w with
           | Some wv => Some (mkVail (w_z_sigma wv) (w_z_mu_layer wv) (beta v))
           | None => Some v
           end
       | None => None
       end;
     estimator := w_estimator w |}.

Section Methods.

Context {Adam Base : Type} (env : Collaborators Adam Base).

Definition __init__ (specs : BehaviorSpec) (settings : Settings.GAILSettings)
    (g : Generator) : t * Generator :=
  let state_encoder_settings :=
    Settings.mkNetworkSettings false (Settings.encoding_size settings) 2
      Settings.SIMPLE None in
  let '(state_encoder, g) :=
    NetworkBody_init env (observation_shapes specs) state_encoder_settings g in
  let action_flattener := ActionFlattener_init env specs in
  let encoder_input_size :=
    if Settings.use_actions settings
    then (Settings.encoding_size settings + (flattened_size action_flattener + 1))%nat
    else Settings.encoding_size settings in
  let '(encoder1, g) :=
    linear_layer env encoder_input_size (Settings.encoding_size settings) None None g in
  let '(encoder2, g) :=
    linear_layer env (Settings.encoding_size settings) (Settings.encoding_size settings)
      None None g in
  let estimator_input_size :=
    if Settings.use_vail settings then z_size else Settings.encoding_size settings in
  let '(vail_attributes, g) :=
    if Settings.use_vail settings then
      let sigma := replicate z_size 1 in
      let '(mu_layer, g) :=
        linear_layer env (Settings.encoding_size settings) z_size
          (Some KaimingHeNormal) (Some 0.1) g in
      (Some (mkVail sigma mu_layer initial_beta), g)
    else (None, g) in
  let '(estimator_linear, g) := linear_layer env estimator_input_size 1 None None g in
  ({| _policy_specs := specs;
      use_vail := Settings.use_vail settings;
      _settings := settings;
      _state_encoder := state_encoder;
      _action_flattener := action_flattener;
      encoder := (encoder1, encoder2);
      vail := vail_attributes;
      estimator := estimator_linear |}, g).

(** [self.encoder(x)] and [self.estimator(x)]. *)
Definition encoder_forward (self : t) : Tensor2 → Tensor2 :=
  Sequential [fst (encoder self); map (Swish env); snd (encoder self); map (Swish env)].

Definition estimator_forward (self : t) : Tensor2 → Tensor2 :=
  Sequential [estimator self; map sigmoid].

Definition get_action_input (mini_batch : AgentBuffer) : M t Tensor2 :=
  let* flattener := gets _action_flattener in
  ret (flattener_forward flattener (actions mini_batch)).

Definition get_state_encoding (mini_batch : AgentBuffer) : M t Tensor2 :=
  let* state_encoder := gets _state_encoder in
  let n_vis := visual_encoders state_encoder in
  let hidden :=
    body_forward state_encoder
      [vector_obs mini_batch]
      (map (fun i => nth i (visual_obs mini_batch) []) (seq 0 n_vis)) in
  ret hidden.

Definition compute_estimate (mini_batch : AgentBuffer) (use_vail_noise : bool)
    : M t (Tensor2 * option Tensor2) :=
  let* encoder_input := get_state_encoding mini_batch in
  let* settings := gets _settings in
  let* encoder_input :=
    if Settings.use_actions settings then
      let* actions := get_action_input mini_batch in
      let dones := done mini_batch in
      ret (cat_dim1 [encoder_input; actions; dones])
    else ret encoder_input in
  let* self := self_ in
  let hidden := encoder_forward self encoder_input in
  let* (hidden, z_mu) :=
    if Settings.use_vail settings then
      let* mu_layer := attr "z_mu_layer" (fun s => z_mu_layer <$> vail s) in
      let z_mu := map mu_layer hidden in
      let* sigma := attr "z_sigma" (fun s => z_sigma <$> vail s) in
      let* hidden :=
        draw (normal z_mu (map (fun s => s * of_bool use_vail_noise) sigma)) in
      ret (hidden, Some z_mu)
    else ret (hidden, None) in
  let estimate := estimator_forward self hidden in
  ret (estimate, z_mu).

(** Lines 223 to 242 of [compute_gradient_magnitude]: the groups that are
    joined into the randomly interpolated encoder input. *)
Definition interpolated_groups (policy_batch expert_batch : AgentBuffer)
    : M t (list Tensor2) :=
  let* policy_obs := get_state_encoding policy_batch in
  let* expert_obs := get_state_encoding expert_batch in
  let* obs_epsilon := draw (rand (shape policy_obs)) in
  let encoder_input :=
    tadd (tmul obs_epsilon policy_obs) (tmul (rsub 1 obs_epsilon) expert_obs) in
  let* settings := gets _settings in
  if Settings.use_actions settings then
    let* policy_action := get_action_input policy_batch in
    let* expert_action := get_action_input policy_batch in
    let* action_epsilon := draw (rand (shape policy_action)) in
    let policy_dones := done policy_batch in
    let expert_dones := done expert_batch in
    let* dones_epsilon := draw (rand (shape policy_dones)) in
    ret [encoder_input;
         tadd (tmul action_epsilon policy_action)
              (tmul (rsub 1 action_epsilon) expert_action);
         tadd (tmul dones_epsilon policy_dones)
              (tmul (rsub 1 dones_epsilon) expert_dones)]
  else ret [encoder_input].

(** Lines 243 to 249: the scalar whose gradient is taken, as a computation on
    the interpolated input. *)
Definition interpolated_estimate (encoder_input : Tensor2) : M t R :=
  let* self := self_ in
  let hidden := encoder_forward self encoder_input in
  let* settings := gets _settings in
  let* hidden :=
    if Settings.use_vail settings then
      let use_vail_noise := true in
      let* mu_layer := attr "z_mu_layer" (fun s => z_mu_layer <$> vail s) in
      let z_mu := map mu_layer hidden in
      let* sigma := attr "z_sigma" (fun s => z_sigma <$> vail s) in
      draw (normal z_mu (map (fun s => s * of_bool use_vail_noise) sigma))
    else ret hidden in
  let hidden := estimator_forward self hidden in
  ret (mean1 (sum_dim1 hidden)).

Definition compute_gradient_magnitude (policy_batch expert_batch : AgentBuffer)
    : M t R :=
  let* groups := interpolated_groups policy_batch expert_batch in
  let encoder_input := cat_dim1 groups in
  let* (self, g) := snapshot in
  let* estimate := interpolated_estimate encoder_input in
  let gradient :=
    autograd_grad env (fun x => value_or 0 (interpolated_estimate x self g))
      encoder_input in
  let safe_norm := map (fun s => sqrt (s + EPSILON)) (sum_dim1 (square gradient)) in
  let gradient_mag := mean1 (map (fun n => (n - 1) ^ 2) safe_norm) in
  ret gradient_mag.

(** Lines 186 to 189 of [compute_loss]. *)
Definition adversarial_loss (policy_estimate expert_estimate : Tensor2) : R :=
  - mean2 (tadd (tmap ln (muls expert_estimate (1 - EPSILON)))
                (tmap ln (rsub 1.0 (muls policy_estimate (1 - EPSILON))))).

(** Lines 193 to 202 of [compute_loss]. *)
Definition kl_divergence (sigma : Tensor1) (expert_mu policy_mu : Tensor2) : R :=
  mean1
    (map Ropp
       (sum_dim1
          (tzip_row Rminus
             (tsub
                (tzip_row_l Rminus
                   (map (fun s => 1 + ln (s ^ 2)) sigma)
                   (smul 0.5 (square expert_mu)))
                (smul 0.5 (square policy_mu)))
             (map (fun s => s ^ 2) sigma)))).

Definition compute_loss (policy_batch expert_batch : AgentBuffer)
    : M t (R * R * R * option R) :=
  let* (policy_estimate, policy_mu) := compute_estimate policy_batch true in
  let* (expert_estimate, expert_mu) := compute_estimate expert_batch true in
  let loss := adversarial_loss policy_estimate expert_estimate in
  let* settings := gets _settings in
  let* (loss, kl_loss) :=
    if Settings.use_vail settings then
      let* sigma := attr "z_sigma" (fun s => z_sigma <$> vail s) in
      let* expert_mu := unwrap (TypeError "expert_mu ** 2") expert_mu in
      let* policy_mu := unwrap (TypeError "policy_mu ** 2") policy_mu in
      let kl_loss := kl_divergence sigma expert_mu policy_mu in
      let* b := attr "beta" (fun s => beta <$> vail s) in
      let vail_loss := b * (kl_loss - mutual_information) in
      let* _ := modify (set_beta (Rmax (b + alpha * (kl_loss - mutual_information)) 0.0)) in
      ret (loss + vail_loss, Some kl_loss)
    else ret (loss, None) in
  let* loss :=
    if Rlt_dec 0.0 gradient_penalty_weight then
      let* gradient_magnitude := compute_gradient_magnitude policy_batch expert_batch in
      ret (loss + gradient_penalty_weight * gradient_magnitude)
    else ret loss in
  ret (loss, mean2 policy_estimate, mean2 expert_estimate, kl_loss).

End Methods.

End DiscriminatorNetwork.

(** ** The reward provider *)

Module GAILRewardProvider.

Record t (Adam Base : Type) := mk {
  (* what super().__init__(specs, settings) sets *)
  base : Base;
  _ignore_done : bool;
  _discriminator_network : DiscriminatorNetwork.t;
  _demo_buffer : AgentBuffer;
  optimizer : Adam
}.
Arguments mk {Adam Base} _ _ _ _ _.
Arguments base {Adam Base} _.
Arguments _ignore_done {Adam Base} _.
Arguments _discriminator_network {Adam Base} _.
Arguments _demo_buffer {Adam Base} _.
Arguments optimizer {Adam Base} _.

Section Methods.

Context {Adam Base : Type} (env : Collaborators Adam Base).

(** The network is an object the provider refers to; a method of the network
    that mutates it is seen through the provider. *)
Definition set_network (net : DiscriminatorNetwork.t) (self : t Adam Base)
    : t Adam Base :=
  mk (base self) (_ignore_done self) net (_demo_buffer self) (optimizer self).

Definition __init__ (specs : BehaviorSpec) (settings : Settings.GAILSettings)
    (g : Generator) : t Adam Base * Generator :=
  let base_attributes := BaseRewardProvider_init env specs settings in
  let ignore_done := true in
  let '(discriminator_network, g) := DiscriminatorNetwork.__init__ env specs settings g in
  let '(_, demo_buffer) := demo_to_buffer env (Settings.demo_path settings) 1 specs in
  let params := DiscriminatorNetwork.parameters discriminator_network in
  (mk base_attributes ignore_done discriminator_network demo_buffer
      (Adam_init env params (Settings.learning_rate settings)), g).

(** The reward of one experience from its estimate. *)
Definition reward (estimate : R) : R :=
  - ln (1.0 - estimate * (1.0 - DiscriminatorNetwork.EPSILON)).

Definition evaluate (mini_batch : AgentBuffer) : M (t Adam Base) Tensor1 :=
  let* (estimates, _) :=
    on_attr _discriminator_network set_network
      (DiscriminatorNetwork.compute_estimate env mini_batch false) in
  ret (map reward (squeeze_dim1 estimates)).

(** [zero_grad(); loss.backward(); step()]: the optimizer updates the
    network's weights in place from the loss as a function of them. *)
Definition optimizer_step (loss : Weights → R) (self : t Adam Base) : t Adam Base :=
  let net := _discriminator_network self in
  let '(optimizer', weights') :=
    Adam_step env (optimizer self) (DiscriminatorNetwork.parameters net) loss in
  mk (base self) (_ignore_done self) (DiscriminatorNetwork.load_weights weights' net)
     (_demo_buffer self) optimizer'.

Definition update (mini_batch : AgentBuffer) : M (t Adam Base) (gmap string R) :=
  let* demo_buffer := gets _demo_buffer in
  let* expert_batch :=
    draw (sample_mini_batch env demo_buffer (num_experiences env mini_batch) 1%nat) in
  let* (before, g) := snapshot in
  let* (loss, policy_mean_estimate, expert_mean_estimate, kl_loss) :=
    on_attr _discriminator_network set_network
      (DiscriminatorNetwork.compute_loss env mini_batch expert_batch) in
  let loss_of (w : Weights) : R :=
    fst (fst (fst (value_or (0, 0, 0, None)
      (DiscriminatorNetwork.compute_loss env mini_batch expert_batch
         (DiscriminatorNetwork.load_weights w (_discriminator_network before)) g)))) in
  let* _ := modify (optimizer_step loss_of) in
  let stats_dict : gmap string R :=
    <["Policy/GAIL Expert Estimate" := expert_mean_estimate]>
      (<["Policy/GAIL Policy Estimate" := policy_mean_estimate]>
         (<["Losses/GAIL Discriminator Loss" := loss]> ∅)) in
  let* use_vail :=
    gets (fun s => DiscriminatorNetwork.use_vail (_discriminator_network s)) in
  if use_vail then
    let* b :=
      attr "beta"
        (fun s => DiscriminatorNetwork.beta <$>
                    DiscriminatorNetwork.vail (_discriminator_network s)) in
    let stats_dict := <["Policy/GAIL Beta" := b]> stats_dict in
    let* kl := unwrap (AttributeError "detach") kl_loss in
    ret (<["Losses/GAIL KL Loss" := kl]> stats_dict)
  else ret stats_dict.

End Methods.

End GAILRewardProvider.

(** ** The reward in binary32 *)

(** The tensors of this module are of torch's default dtype, binary32
    (24 bits of precision, largest exponent 128); a Python float is a
    binary64 (53 bits, 1024), rounded to binary32 where it meets a tensor.
    All operations round to nearest, ties to even. *)
Module Binary32.

Import SpecFloat.

Abbreviation float := spec_float.

Definition prec : Z := 24%Z.
Definition emax : Z := 128%Z.

Definition mul : float → float → float := SFmul prec emax.
Definition sub : float → float → float := SFsub prec emax.
Definition neg : float → float := SFopp.
Definition one : float := SFone prec emax.

(** The Python float literal of the decimal [num / den]. *)
Definition python_float (num den : positive) : float :=
  SFdiv 53 1024 (binary_round 53 1024 false num 0) (binary_round 53 1024 false den 0).

Definition python_sub : float → float → float := SFsub 53 1024.

(** A Python float as an operand of a binary32 tensor, or as its entry. *)
Definition of_python (x : float) : float :=
  match x with
  | S754_finite s m e => binary_round prec emax s m e
  | _ => x
  end.

Definition EPSILON : float := python_float 1 10000000.

Section Reward.

(** [torch.log] on one entry. *)
Variable log : float → float.

(** Lines 35 to 39 of [evaluate], on one entry of [estimates]. *)
Definition reward (estimate : float) : float :=
  neg (log (sub one
              (mul estimate (of_python (python_sub (python_float 1 1) EPSILON))))).

End Reward.

End Binary32.

(** ** Invariants, reference formulas and a concrete instance *)

(** The class invariant [DiscriminatorNetwork.__init__] establishes: the
    attribute [use_vail] is the setting, and the VAIL attributes exist
    exactly when it holds. *)
Definition wf_network (net : DiscriminatorNetwork.t) : Prop :=
  DiscriminatorNetwork.use_vail net
    = Settings.use_vail (DiscriminatorNetwork._settings net)
  ∧ (is_Some (DiscriminatorNetwork.vail net)
     ↔ Settings.use_vail (DiscriminatorNetwork._settings net) = true).

Definition wf_provider {Adam Base} (p : GAILRewardProvider.t Adam Base) : Prop :=
  wf_network (GAILRewardProvider._discriminator_network p).

(** What the forward pass feeds to the encoder, and the hidden layer the
    encoder returns for it. *)
Definition state_encoding_of (self : DiscriminatorNetwork.t) (mini_batch : AgentBuffer)
    : Tensor2 :=
  let state_encoder := DiscriminatorNetwork._state_encoder self in
  body_forward state_encoder [vector_obs mini_batch]
    (map (fun i => nth i (visual_obs mini_batch) [])
         (seq 0 (visual_encoders state_encoder))).

Definition encoder_input_of (self : DiscriminatorNetwork.t) (mini_batch : AgentBuffer)
    : Tensor2 :=
  let state := state_encoding_of self mini_batch in
  if Settings.use_actions (DiscriminatorNetwork._settings self)
  then cat_dim1 [state;
                 flattener_forward (DiscriminatorNetwork._action_flattener self)
                   (actions mini_batch);
                 done mini_batch]
  else state.

Definition hidden_of {Adam Base} (env : Collaborators Adam Base)
    (self : DiscriminatorNetwork.t) (mini_batch : AgentBuffer) : Tensor2 :=
  DiscriminatorNetwork.encoder_forward env self (encoder_input_of self mini_batch).

(** The value of [self.beta], where the attribute exists. *)
Definition beta_of (net : DiscriminatorNetwork.t) : option R :=
  DiscriminatorNetwork.beta <$> DiscriminatorNetwork.vail net.

(** A caller that runs a method once per element, in order, as the trainer
    does with [update] on successive mini batches. *)
Fixpoint for_each {S A B} (xs : list A) (body : A → M S B) : M S (list B) :=
  match xs with
  | [] => ret []
  | x :: xs' =>
      let* b := body x in
      let* bs := for_each xs' body in
      ret (b :: bs)
  end.

(** The binary cross entropy of the specification, over experiences: minus the
    average over [i] of [log(expert_i * (1-eps)) + log(1 - policy_i * (1-eps))]. *)
Definition adversarial_loss_spec (policy_estimate expert_estimate : Tensor1) : R :=
  - (Rsum (map (fun i =>
                  ln (nth i expert_estimate 0 * (1 - DiscriminatorNetwork.EPSILON))
                  + ln (1 - nth i policy_estimate 0 * (1 - DiscriminatorNetwork.EPSILON)))
               (seq 0 (length policy_estimate)))
     / INR (length policy_estimate)).

(** The interpolation of the specification: [eps * policy_x + (1 - eps) * expert_x],
    entry by entry. *)
Definition interpolate_spec (eps policy_x expert_x : Tensor2) : Tensor2 :=
  tzip Rplus (tzip Rmult eps policy_x) (tzip (fun e x => (1 - e) * x) eps expert_x).

(** The collaborators with another demonstration loader and another buffer
    sampler. *)
Definition with_loaders {Adam Base} (env : Collaborators Adam Base)
    (loader : string → nat → BehaviorSpec → BehaviorSpec * AgentBuffer)
    (sampler : AgentBuffer → nat → nat → Generator → AgentBuffer * Generator)
    : Collaborators Adam Base :=
  {| NetworkBody_init := NetworkBody_init env;
     ActionFlattener_init := ActionFlattener_init env;
     linear_layer := linear_layer env;
     Swish := Swish env;
     autograd_grad := autograd_grad env;
     demo_to_buffer := loader;
     sample_mini_batch := sampler;
     num_experiences := num_experiences env;
     BaseRewardProvider_init := BaseRewardProvider_init env;
     Adam_init := Adam_init env;
     Adam_step := Adam_step env |}.

Module Example.

(** A small instance of the collaborators: the observation encoder returns the
    vector observations, actions are continuous, every unit of a linear layer
    sums its inputs, the demonstration file holds one experience per unit of
    sequence length, sampling takes the first rows, and the optimizer is at a
    fixed point. *)
Definition demo (sequence_length : nat) : AgentBuffer :=
  {| vector_obs := replicate sequence_length [0];
     visual_obs := [];
     actions := replicate sequence_length [0];
     done := replicate sequence_length [0] |}.

Definition env : Collaborators unit unit :=
  {| NetworkBody_init := fun _ _ g => (mkNetworkBody 0 (fun vec _ => hd [] vec), g);
     ActionFlattener_init :=
       fun specs => mkActionFlattener (foldr Nat.add 0%nat (action_shape specs)) (fun a => a);
     linear_layer := fun _ out _ _ g => (fun row => replicate out (Rsum row), g);
     Swish := fun x => x * sigmoid x;
     autograd_grad := fun _ x => tmap (fun _ => 0) x;
     demo_to_buffer := fun _ sequence_length specs => (specs, demo sequence_length);
     sample_mini_batch :=
       fun buffer n sequence_length g =>
         ({| vector_obs := take (n * sequence_length) (vector_obs buffer);
             visual_obs := [];
             actions := take (n * sequence_length) (actions buffer);
             done := take (n * sequence_length) (done buffer) |}, g);
     num_experiences := fun b => length (vector_obs b);
     BaseRewardProvider_init := fun _ _ => tt;
     Adam_init := fun _ _ => tt;
     Adam_step := fun o w _ => (o, w) |}.

Definition specs : BehaviorSpec :=
  {| observation_shapes := [[1%nat]]; action_type := CONTINUOUS; action_shape := [1%nat] |}.

Definition settings (actions vail : bool) : Settings.GAILSettings :=
  {| Settings.gamma := 0.99;
     Settings.strength := 1.0;
     Settings.encoding_size := 1;
     Settings.learning_rate := 0.0003;
     Settings.use_actions := actions;
     Settings.use_vail := vail;
     Settings.demo_path := "expert.demo" |}.

Definition generator : Generator :=
  {| uniform := fun _ => 1 / 2; gaussian := fun _ => 1; offset := 0 |}.

Definition other_generator : Generator :=
  {| uniform := fun _ => 1 / 4; gaussian := fun _ => 3; offset := 7 |}.

(** One experience each: the policy observed 2, acted with 1 and was done;
    the expert observed 4, acted with 0 and was not done. *)
Definition policy_batch : AgentBuffer :=
  {| vector_obs := [[2]]; visual_obs := []; actions := [[1]]; done := [[1]] |}.

Definition expert_batch : AgentBuffer :=
  {| vector_obs := [[4]]; visual_obs := []; actions := [[0]]; done := [[0]] |}.

(** A loader and a sampler that do as those of [env] at sequence length 1 and
    otherwise not. *)
Definition other_loader (path : string) (sequence_length : nat) (specs : BehaviorSpec)
    : BehaviorSpec * AgentBuffer :=
  if Nat.eqb sequence_length 1 then demo_to_buffer env path sequence_length specs
  else (specs, demo 0).

Definition other_sampler (buffer : AgentBuffer) (n sequence_length : nat) (g : Generator)
    : AgentBuffer * Generator :=
  if Nat.eqb sequence_length 1 then sample_mini_batch env buffer n sequence_length g
  else (buffer, advance 1 g).

Definition network (actions vail : bool) : DiscriminatorNetwork.t :=
  fst (DiscriminatorNetwork.__init__ env specs (settings actions vail) generator).

Definition provider (actions vail : bool) : GAILRewardProvider.t unit unit :=
  fst (GAILRewardProvider.__init__ env specs (settings actions vail) generator).

(** A second instance, where the estimate does not depend on the input: the
    linear layers have zero weights and zero bias, and differentiation is by
    central differences of step 1 in each entry, which gives the gradient of
    a function that is affine in each entry, and zero for a constant one. *)
Definition bump (i j : nat) (h : R) (x : Tensor2) : Tensor2 :=
  imap (fun i' row =>
          imap (fun j' v => if (Nat.eqb i' i && Nat.eqb j' j)%bool then v + h else v) row)
       x.

Definition central_difference (f : Tensor2 → R) (x : Tensor2) : Tensor2 :=
  imap (fun i row => imap (fun j _ => (f (bump i j 1 x) - f (bump i j (-1) x)) / 2) row) x.

Definition flat_env : Collaborators unit unit :=
  {| NetworkBody_init := NetworkBody_init env;
     ActionFlattener_init := ActionFlattener_init env;
     linear_layer := fun _ out _ _ g => (fun _ => replicate out 0, g);
     Swish := Swish env;
     autograd_grad := central_difference;
     demo_to_buffer := demo_to_buffer env;
     sample_mini_batch := sample_mini_batch env;
     num_experiences := num_experiences env;
     BaseRewardProvider_init := BaseRewardProvider_init env;
     Adam_init := Adam_init env;
     Adam_step := Adam_step env |}.

Definition flat_network : DiscriminatorNetwork.t :=
  fst (DiscriminatorNetwork.__init__ flat_env specs (settings true false) generator).

End Example.

(** ** Properties *)

Import DiscriminatorNetwork.

(** *** Running monadic code *)

Lemma bind_Ok {S A B} (c : M S A) (k : A → M S B) s g a s' g' :
  c s g = Ok (a, s', g') → bind c k s g = k a s' g'.
Proof. intros H. unfold bind. now rewrite H. Qed.

Lemma on_attr_Ok {S T A} (proj : S → T) inj (c : M T A) s g a t' g' :
  c (proj s) g = Ok (a, t', g') → on_attr proj inj c s g = Ok (a, inj t' s, g').
Proof. intros H. unfold on_attr. now rewrite H. Qed.

(** *** Real arithmetic of the estimator and of the reward *)

Lemma EPSILON_range : 0 < EPSILON < 1.
Proof. unfold EPSILON. lra. Qed.

Lemma sigmoid_range x : 0 < sigmoid x < 1.
Proof.
  unfold sigmoid.
  pose proof (exp_pos (- x)) as He.
  assert (Hd : 0 < 1 + exp (- x)) by lra.
  pose proof (Rinv_0_lt_compat _ Hd) as Hi.
  assert (Hm : / (1 + exp (- x)) * (1 + exp (- x)) = 1) by (apply Rinv_l; lra).
  unfold Rdiv. rewrite Rmult_1_l. split; [assumption | nra].
Qed.

Lemma estimator_forward_range self x :
  Forall (Forall (fun e => 0 < e < 1)) (estimator_forward self x).
Proof.
  unfold estimator_forward, Sequential. apply Forall_map, Forall_true. intros row.
  simpl. apply Forall_map, Forall_true. intros e. apply sigmoid_range.
Qed.

Lemma log_argument_range e :
  0 <= e < 1 → EPSILON < 1.0 - e * (1.0 - EPSILON) <= 1.
Proof. pose proof EPSILON_range. intros He. nra. Qed.

Lemma reward_nonneg e :
  0 <= e < 1 → 0 <= GAILRewardProvider.reward e.
Proof.
  intros He. unfold GAILRewardProvider.reward.
  pose proof (log_argument_range e He) as [Hl Hu]. pose proof EPSILON_range.
  destruct Hu as [Hu | Hu].
  - assert (ln (1.0 - e * (1.0 - EPSILON)) < ln 1) by (apply ln_increasing; lra).
    rewrite ln_1 in *. lra.
  - rewrite Hu, ln_1. lra.
Qed.

(** *** Sampling with a zero standard deviation *)

Lemma nth_zero_std (sigma : Tensor1) j :
  nth j (map (fun s => s * of_bool false) sigma) 0 = 0.
Proof.
  revert j. induction sigma as [| s sigma IH]; intros [| j]; simpl; auto.
  unfold of_bool. lra.
Qed.

Lemma imap_same {A} (f : nat → A → A) (l : list A) :
  (∀ i x, f i x = x) → imap f l = l.
Proof.
  intros Hf. revert f Hf. induction l as [| x l IH]; intros f Hf; simpl; [reflexivity |].
  rewrite Hf. f_equal. apply IH. intros i y. apply Hf.
Qed.

Lemma normal_zero_std (z_mu : Tensor2) (sigma : Tensor1) g :
  fst (normal z_mu (map (fun s => s * of_bool false) sigma) g) = z_mu.
Proof.
  unfold normal. simpl. apply imap_same. intros i row. apply imap_same. intros j m.
  rewrite nth_zero_std. lra.
Qed.

(** *** The forward pass returns, and leaves the network as it is *)

Section Forward.

Context {Adam Base : Type} (env : Collaborators Adam Base).

Lemma vail_present self :
  wf_network self → Settings.use_vail (_settings self) = true →
  ∃ v, vail self = Some v.
Proof. intros [_ Hv] Hu. apply Hv in Hu. destruct Hu as [v Hv']. eauto. Qed.

Lemma compute_estimate_vail mini_batch noise self g v :
  vail self = Some v → Settings.use_vail (_settings self) = true →
  compute_estimate env mini_batch noise self g =
    let z_mu := map (z_mu_layer v) (hidden_of env self mini_batch) in
    let sample := normal z_mu (map (fun s => s * of_bool noise) (z_sigma v)) g in
    Ok ((estimator_forward self (fst sample), Some z_mu), self, snd sample).
Proof.
  intros Hv Hu.
  unfold compute_estimate, get_state_encoding, get_action_input, bind, gets, self_, ret,
    attr, draw, hidden_of, encoder_input_of, state_encoding_of.
  rewrite Hu. destruct (Settings.use_actions (_settings self)); simpl;
    repeat (rewrite Hv; simpl); reflexivity.
Qed.

Lemma compute_estimate_plain mini_batch noise self g :
  Settings.use_vail (_settings self) = false →
  compute_estimate env mini_batch noise self g =
    Ok ((estimator_forward self (hidden_of env self mini_batch), None), self, g).
Proof.
  intros Hu.
  unfold compute_estimate, get_state_encoding, get_action_input, bind, gets, self_, ret,
    hidden_of, encoder_input_of, state_encoding_of.
  rewrite Hu. destruct (Settings.use_actions (_settings self)); reflexivity.
Qed.

Lemma compute_estimate_ok mini_batch noise self g :
  wf_network self →
  ∃ est mu g',
    compute_estimate env mini_batch noise self g = Ok ((est, mu), self, g')
    ∧ (is_Some mu ↔ Settings.use_vail (_settings self) = true)
    ∧ Forall (Forall (fun e => 0 < e < 1)) est.
Proof.
  intros Hwf. destruct (Settings.use_vail (_settings self)) eqn:Hu.
  - destruct (vail_present self Hwf Hu) as [v Hv].
    rewrite (compute_estimate_vail _ _ _ _ v Hv Hu). cbv zeta.
    do 3 eexists. split; [reflexivity |]. split; [| apply estimator_forward_range].
    split; [reflexivity | eauto].
  - rewrite (compute_estimate_plain _ _ _ _ Hu).
    do 3 eexists. split; [reflexivity |]. split; [| apply estimator_forward_range].
    split; [intros [x Hx]; discriminate | discriminate].
Qed.

(** Without noise the forward pass does not depend on the generator, and
    the estimate is the estimator applied to the latent mean. *)
Lemma compute_estimate_noiseless mini_batch self :
  wf_network self →
  ∃ est mu,
    (∀ g, ∃ g', compute_estimate env mini_batch false self g = Ok ((est, mu), self, g'))
    ∧ (∀ z_mu, mu = Some z_mu → est = estimator_forward self z_mu).
Proof.
  intros Hwf. destruct (Settings.use_vail (_settings self)) eqn:Hu.
  - destruct (vail_present self Hwf Hu) as [v Hv].
    exists (estimator_forward self (map (z_mu_layer v) (hidden_of env self mini_batch))),
      (Some (map (z_mu_layer v) (hidden_of env self mini_batch))).
    split.
    + intros g. rewrite (compute_estimate_vail _ _ _ _ v Hv Hu). cbv zeta.
      pose proof (normal_zero_std (map (z_mu_layer v) (hidden_of env self mini_batch))
                    (z_sigma v) g) as Hn.
      rewrite Hn. eexists. reflexivity.
    + intros z_mu Hz. injection Hz as <-. reflexivity.
  - do 2 eexists. split.
    + intros g. rewrite (compute_estimate_plain _ _ _ _ Hu). eexists. reflexivity.
    + discriminate.
Qed.

(** With actions in use, the three groups of the interpolated input. *)
Lemma interpolated_groups_actions policy_batch expert_batch self g :
  Settings.use_actions (_settings self) = true →
  interpolated_groups policy_batch expert_batch self g =
    let policy_obs := state_encoding_of self policy_batch in
    let expert_obs := state_encoding_of self expert_batch in
    let obs := rand (shape policy_obs) g in
    let policy_action := flattener_forward (_action_flattener self) (actions policy_batch) in
    let act := rand (shape policy_action) (snd obs) in
    let dones := rand (shape (done policy_batch)) (snd act) in
    Ok ([tadd (tmul (fst obs) policy_obs) (tmul (rsub 1 (fst obs)) expert_obs);
         tadd (tmul (fst act) policy_action) (tmul (rsub 1 (fst act)) policy_action);
         tadd (tmul (fst dones) (done policy_batch))
              (tmul (rsub 1 (fst dones)) (done expert_batch))],
        self, snd dones).
Proof.
  intros Ha.
  unfold interpolated_groups, get_state_encoding, get_action_input, bind, gets, ret, draw,
    state_encoding_of.
  simpl. rewrite Ha. reflexivity.
Qed.

Lemma interpolated_groups_ok policy_batch expert_batch self g :
  ∃ groups g', interpolated_groups policy_batch expert_batch self g = Ok (groups, self, g').
Proof.
  destruct (Settings.use_actions (_settings self)) eqn:Ha.
  - rewrite (interpolated_groups_actions _ _ _ _ Ha). cbv zeta. eauto.
  - unfold interpolated_groups, get_state_encoding, bind, gets, ret, draw. simpl.
    rewrite Ha. eauto.
Qed.

Lemma interpolated_estimate_ok encoder_input self g :
  wf_network self →
  ∃ estimate g', interpolated_estimate env encoder_input self g = Ok (estimate, self, g').
Proof.
  intros Hwf. unfold interpolated_estimate, bind, gets, self_, ret.
  destruct (Settings.use_vail (_settings self)) eqn:Hu.
  - destruct (vail_present self Hwf Hu) as [v Hv].
    unfold attr, draw. repeat (rewrite Hv; cbn).
    match goal with |- context [normal ?m ?s g] => destruct (normal m s g) end.
    eauto.
  - eauto.
Qed.

Lemma compute_gradient_magnitude_ok policy_batch expert_batch self g :
  wf_network self →
  ∃ magnitude g',
    compute_gradient_magnitude env policy_batch expert_batch self g
      = Ok (magnitude, self, g').
Proof.
  intros Hwf. unfold compute_gradient_magnitude.
  destruct (interpolated_groups_ok policy_batch expert_batch self g) as (groups & g1 & Hg).
  rewrite (bind_Ok _ _ _ _ _ _ _ Hg).
  unfold snapshot at 1. unfold bind at 1.
  destruct (interpolated_estimate_ok (cat_dim1 groups) self g1 Hwf) as (e & g2 & He).
  rewrite (bind_Ok _ _ _ _ _ _ _ He). unfold ret. eauto.
Qed.

(** The gradient penalty does not read beta. *)
Lemma interpolated_groups_beta b policy_batch expert_batch self g :
  interpolated_groups policy_batch expert_batch (set_beta b self) g
  = match interpolated_groups policy_batch expert_batch self g with
    | Ok (groups, _, g') => Ok (groups, set_beta b self, g')
    | Raise e => Raise e
    end.
Proof.
  unfold interpolated_groups, get_state_encoding, get_action_input, bind, gets, ret, draw.
  simpl. destruct (Settings.use_actions (_settings self)); reflexivity.
Qed.

Lemma interpolated_estimate_beta b x self g :
  interpolated_estimate env x (set_beta b self) g
  = match interpolated_estimate env x self g with
    | Ok (e, _, g') => Ok (e, set_beta b self, g')
    | Raise e => Raise e
    end.
Proof.
  destruct self as [specs uv settings body flattener enc [v |] est];
    unfold interpolated_estimate, bind, gets, self_, ret, attr, draw, set_beta;
    cbn; destruct (Settings.use_vail settings); try reflexivity.
Qed.

Lemma compute_gradient_magnitude_beta b policy_batch expert_batch self g :
  compute_gradient_magnitude env policy_batch expert_batch (set_beta b self) g
  = match compute_gradient_magnitude env policy_batch expert_batch self g with
    | Ok (magnitude, _, g') => Ok (magnitude, set_beta b self, g')
    | Raise e => Raise e
    end.
Proof.
  destruct (interpolated_groups_ok policy_batch expert_batch self g) as (groups & g1 & Hg).
  pose proof (interpolated_groups_beta b policy_batch expert_batch self g) as Hg'.
  rewrite Hg in Hg'.
  unfold compute_gradient_magnitude.
  rewrite (bind_Ok _ _ _ _ _ _ _ Hg'), (bind_Ok _ _ _ _ _ _ _ Hg).
  unfold snapshot. unfold bind at 1 3. cbv beta iota.
  assert (Hf : (fun x => value_or 0 (interpolated_estimate env x (set_beta b self) g1))
               = (fun x => value_or 0 (interpolated_estimate env x self g1))).
  { apply functional_extensionality. intros x. rewrite interpolated_estimate_beta.
    destruct (interpolated_estimate env x self g1) as [[[e s] g2] |]; reflexivity. }
  rewrite Hf. unfold bind. rewrite interpolated_estimate_beta.
  destruct (interpolated_estimate env (cat_dim1 groups) self g1) as [[[e s] g2] |];
    reflexivity.
Qed.

Lemma gradient_penalty_on : 0.0 < gradient_penalty_weight.
Proof. unfold gradient_penalty_weight. lra. Qed.

Lemma set_beta_wf b self : wf_network self → wf_network (set_beta b self).
Proof.
  intros [H1 H2]. split; [exact H1 |]. simpl. rewrite <- H2.
  destruct (vail self); simpl; split; intros [x Hx]; try discriminate; eauto.
Qed.

(** The loss, its parts and the state [compute_loss] leaves, from the two
    noisy estimates it computes first. *)
Lemma compute_loss_run policy_batch expert_batch self g pe pmu g1 ee emu g2 :
  wf_network self →
  compute_estimate env policy_batch true self g = Ok ((pe, pmu), self, g1) →
  compute_estimate env expert_batch true self g1 = Ok ((ee, emu), self, g2) →
  ∃ kl self' magnitude g3,
    compute_gradient_magnitude env policy_batch expert_batch self' g2
      = Ok (magnitude, self', g3)
    ∧ compute_loss env policy_batch expert_batch self g
      = Ok ((adversarial_loss pe ee
             + match kl, vail self with
               | Some k, Some v => beta v * (k - mutual_information)
               | _, _ => 0
               end
             + gradient_penalty_weight * magnitude,
             mean2 pe, mean2 ee, kl), self', g3)
    ∧ self' = match kl, vail self with
              | Some k, Some v =>
                  set_beta (Rmax (beta v + alpha * (k - mutual_information)) 0.0) self
              | _, _ => self
              end
    ∧ (is_Some kl ↔ Settings.use_vail (_settings self) = true).
Proof.
  intros Hwf Hp He. unfold compute_loss.
  rewrite (bind_Ok _ _ _ _ _ _ _ Hp). cbv beta iota.
  rewrite (bind_Ok _ _ _ _ _ _ _ He). cbv beta iota.
  unfold gets at 1. unfold bind at 1.
  destruct (Rlt_dec 0.0 gradient_penalty_weight) as [_ | Hn];
    [| exfalso; apply Hn, gradient_penalty_on].
  case_eq (Settings.use_vail (_settings self)); intros Hu.
  - destruct (vail_present self Hwf Hu) as [v Hv].
    destruct (compute_estimate_ok policy_batch true self g Hwf)
      as (? & m1 & ? & E1 & [_ I1] & _).
    destruct (compute_estimate_ok expert_batch true self g1 Hwf)
      as (? & m2 & ? & E2 & [_ I2] & _).
    rewrite Hp in E1. rewrite He in E2.
    injection E1 as <- <- <-. injection E2 as <- <- <-.
    destruct (I1 Hu) as [z1 ->]. destruct (I2 Hu) as [z2 ->].
    set (k := kl_divergence (z_sigma v) z2 z1).
    set (self' := set_beta (Rmax (beta v + alpha * (k - mutual_information)) 0.0) self).
    destruct (compute_gradient_magnitude_ok policy_batch expert_batch self' g2
                (set_beta_wf _ _ Hwf)) as (magnitude & g3 & Hg).
    exists (Some k), self', magnitude, g3. split; [exact Hg |]. split; [| split].
    + unfold bind, attr, unwrap, modify, ret.
      repeat (rewrite Hv;
              change (z_sigma <$> Some v) with (Some (z_sigma v));
              change (beta <$> Some v) with (Some (beta v));
              cbv beta iota).
      fold k. fold self'. rewrite Hg. reflexivity.
    + rewrite Hv. reflexivity.
    + split; eauto.
  - destruct (compute_gradient_magnitude_ok policy_batch expert_batch self g2 Hwf)
      as (magnitude & g3 & Hg).
    exists None, self, magnitude, g3. split; [exact Hg |]. split; [| split].
    + unfold bind, ret. rewrite Hg. rewrite Rplus_0_r. reflexivity.
    + reflexivity.
    + split; [intros [x Hx]; discriminate | discriminate].
Qed.

(** With VAIL: the loss from its parts, each of them computed on the network
    of before the call, and the network the call leaves. *)
Lemma compute_loss_vail policy_batch expert_batch self g v :
  wf_network self → vail self = Some v →
  ∃ pe pmu g1 ee emu g2 magnitude g3,
    compute_estimate env policy_batch true self g = Ok ((pe, Some pmu), self, g1)
    ∧ compute_estimate env expert_batch true self g1 = Ok ((ee, Some emu), self, g2)
    ∧ compute_gradient_magnitude env policy_batch expert_batch self g2
      = Ok (magnitude, self, g3)
    ∧ compute_loss env policy_batch expert_batch self g
      = Ok ((adversarial_loss pe ee
             + beta v * (kl_divergence (z_sigma v) emu pmu - mutual_information)
             + gradient_penalty_weight * magnitude,
             mean2 pe, mean2 ee, Some (kl_divergence (z_sigma v) emu pmu)),
            set_beta
              (Rmax (beta v + alpha * (kl_divergence (z_sigma v) emu pmu - mutual_information))
                 0.0) self,
            g3).
Proof.
  intros Hwf Hv.
  assert (Hu : Settings.use_vail (_settings self) = true)
    by (apply (proj2 Hwf); rewrite Hv; eauto).
  destruct (compute_estimate_ok policy_batch true self g Hwf) as (pe & m1 & g1 & Hp & [_ I1] & _).
  destruct (compute_estimate_ok expert_batch true self g1 Hwf) as (ee & m2 & g2 & He & [_ I2] & _).
  destruct (I1 Hu) as [pmu ->]. destruct (I2 Hu) as [emu ->].
  destruct (compute_gradient_magnitude_ok policy_batch expert_batch self g2 Hwf)
    as (magnitude & g3 & Hg).
  exists pe, pmu, g1, ee, emu, g2, magnitude, g3.
  split; [exact Hp |]. split; [exact He |]. split; [exact Hg |].
  unfold compute_loss.
  rewrite (bind_Ok _ _ _ _ _ _ _ Hp). cbv beta iota.
  rewrite (bind_Ok _ _ _ _ _ _ _ He). cbv beta iota.
  unfold gets at 1. unfold bind at 1. rewrite Hu.
  destruct (Rlt_dec 0.0 gradient_penalty_weight) as [_ | Hn];
    [| exfalso; apply Hn, gradient_penalty_on].
  unfold bind, attr, unwrap, modify, ret.
  repeat (rewrite Hv;
          change (z_sigma <$> Some v) with (Some (z_sigma v));
          change (beta <$> Some v) with (Some (beta v));
          cbv beta iota).
  rewrite compute_gradient_magnitude_beta, Hg. reflexivity.
Qed.

Lemma compute_loss_ok policy_batch expert_batch self g :
  wf_network self →
  ∃ loss policy_mean expert_mean kl self' g',
    compute_loss env policy_batch expert_batch self g
      = Ok ((loss, policy_mean, expert_mean, kl), self', g')
    ∧ wf_network self'
    ∧ _settings self' = _settings self
    ∧ (is_Some kl ↔ Settings.use_vail (_settings self) = true)
    ∧ self' = match kl, vail self with
              | Some k, Some v =>
                  set_beta (Rmax (beta v + alpha * (k - mutual_information)) 0.0) self
              | _, _ => self
              end.
Proof.
  intros Hwf.
  destruct (compute_estimate_ok policy_batch true self g Hwf) as (pe & pmu & g1 & Hp & _).
  destruct (compute_estimate_ok expert_batch true self g1 Hwf) as (ee & emu & g2 & He & _).
  destruct (compute_loss_run _ _ _ _ _ _ _ _ _ _ Hwf Hp He)
    as (kl & self' & magnitude & g3 & _ & Hl & Hs & Hk).
  do 6 eexists. split; [exact Hl |]. split; [| split; [| split; [exact Hk | exact Hs]]].
  - rewrite Hs. destruct kl, (vail self); try assumption. now apply set_beta_wf.
  - rewrite Hs. destruct kl, (vail self); reflexivity.
Qed.

End Forward.

(** *** The provider *)

Section Provider.

Context {Adam Base : Type} (env : Collaborators Adam Base).

Lemma network_init_wf specs settings g :
  wf_network (fst (DiscriminatorNetwork.__init__ env specs settings g)).
Proof.
  unfold DiscriminatorNetwork.__init__.
  destruct (NetworkBody_init env _ _ g) as [body g1].
  destruct (linear_layer env _ _ None None g1) as [l1 g2].
  destruct (linear_layer env _ _ None None g2) as [l2 g3].
  destruct (Settings.use_vail settings) eqn:Hu.
  - destruct (linear_layer env _ z_size _ _ g3) as [mu g4].
    destruct (linear_layer env _ 1%nat None None g4) as [est g5].
    split; simpl; rewrite Hu; [reflexivity | split; eauto].
  - destruct (linear_layer env _ 1%nat None None g3) as [est g5].
    split; simpl; rewrite Hu; [reflexivity | split; [intros [x Hx] |]; discriminate].
Qed.

Lemma provider_init_network specs settings g :
  GAILRewardProvider._discriminator_network
    (fst (GAILRewardProvider.__init__ env specs settings g))
  = fst (DiscriminatorNetwork.__init__ env specs settings g).
Proof.
  unfold GAILRewardProvider.__init__.
  destruct (DiscriminatorNetwork.__init__ env specs settings g) as [net g'].
  destruct (demo_to_buffer env _ 1%nat specs) as [s b]. reflexivity.
Qed.

Lemma provider_init_wf specs settings g :
  wf_provider (fst (GAILRewardProvider.__init__ env specs settings g)).
Proof. unfold wf_provider. rewrite provider_init_network. apply network_init_wf. Qed.

Lemma set_network_same (p : GAILRewardProvider.t Adam Base) :
  GAILRewardProvider.set_network (GAILRewardProvider._discriminator_network p) p = p.
Proof. destruct p. reflexivity. Qed.

Lemma load_weights_wf w net : wf_network net → wf_network (load_weights w net).
Proof.
  intros [H1 H2]. split; [exact H1 |]. simpl. rewrite <- H2.
  destruct (vail net), (w_vail w); split; intros [x Hx]; try discriminate; eauto.
Qed.

Lemma optimizer_step_wf loss (p : GAILRewardProvider.t Adam Base) :
  wf_provider p → wf_provider (GAILRewardProvider.optimizer_step env loss p).
Proof.
  unfold wf_provider, GAILRewardProvider.optimizer_step. intros Hwf.
  destruct (Adam_step env _ _ loss) as [o w]. simpl. now apply load_weights_wf.
Qed.

(** The optimizer does not move [beta]. *)
Lemma optimizer_step_beta loss (p : GAILRewardProvider.t Adam Base) :
  beta_of (GAILRewardProvider._discriminator_network
             (GAILRewardProvider.optimizer_step env loss p))
  = beta_of (GAILRewardProvider._discriminator_network p).
Proof.
  unfold GAILRewardProvider.optimizer_step, beta_of.
  destruct (Adam_step env _ _ loss) as [o w]. simpl.
  destruct (vail _), (w_vail w); reflexivity.
Qed.

Lemma optimizer_step_settings loss (p : GAILRewardProvider.t Adam Base) :
  _settings (GAILRewardProvider._discriminator_network
               (GAILRewardProvider.optimizer_step env loss p))
  = _settings (GAILRewardProvider._discriminator_network p).
Proof.
  unfold GAILRewardProvider.optimizer_step.
  destruct (Adam_step env _ _ loss) as [o w]. reflexivity.
Qed.

Lemma evaluate_run mini_batch (p : GAILRewardProvider.t Adam Base) g est mu g' :
  compute_estimate env mini_batch false (GAILRewardProvider._discriminator_network p) g
    = Ok ((est, mu), GAILRewardProvider._discriminator_network p, g') →
  GAILRewardProvider.evaluate env mini_batch p g
    = Ok (map GAILRewardProvider.reward (squeeze_dim1 est), p, g').
Proof.
  intros H. unfold GAILRewardProvider.evaluate.
  rewrite (bind_Ok _ _ _ _ _ _ _ (on_attr_Ok _ _ _ _ _ _ _ _ H)).
  rewrite set_network_same. reflexivity.
Qed.

(** The statistics [update] reports. *)
Lemma update_run mini_batch (p : GAILRewardProvider.t Adam Base) g :
  wf_provider p →
  ∃ expert_batch g0 loss policy_mean expert_mean kl net' g1 p',
    sample_mini_batch env (GAILRewardProvider._demo_buffer p)
      (num_experiences env mini_batch) 1%nat g = (expert_batch, g0)
    ∧ compute_loss env mini_batch expert_batch
        (GAILRewardProvider._discriminator_network p) g0
      = Ok ((loss, policy_mean, expert_mean, kl), net', g1)
    ∧ GAILRewardProvider.update env mini_batch p g
      = Ok (match kl, beta_of net' with
            | Some k, Some b =>
                <["Losses/GAIL KL Loss" := k]>
                  (<["Policy/GAIL Beta" := b]>
                     (<["Policy/GAIL Expert Estimate" := expert_mean]>
                        (<["Policy/GAIL Policy Estimate" := policy_mean]>
                           (<["Losses/GAIL Discriminator Loss" := loss]> ∅))))
            | _, _ =>
                <["Policy/GAIL Expert Estimate" := expert_mean]>
                  (<["Policy/GAIL Policy Estimate" := policy_mean]>
                     (<["Losses/GAIL Discriminator Loss" := loss]> ∅))
            end, p', g1)
    ∧ wf_provider p'
    ∧ beta_of (GAILRewardProvider._discriminator_network p') = beta_of net'
    ∧ _settings (GAILRewardProvider._discriminator_network p')
      = _settings (GAILRewardProvider._discriminator_network p)
    ∧ (is_Some kl
       ↔ Settings.use_vail (_settings (GAILRewardProvider._discriminator_network p))
         = true).
Proof.
  intros Hwf. unfold GAILRewardProvider.update.
  unfold gets at 1. unfold bind at 1.
  unfold draw at 1. unfold bind at 1.
  destruct (sample_mini_batch env _ _ 1%nat g) as [expert_batch g0] eqn:Hs.
  unfold snapshot at 1. unfold bind at 1. cbv beta iota.
  destruct (compute_loss_ok env mini_batch expert_batch _ g0 Hwf)
    as (loss & pm & em & kl & net' & g1 & Hl & Hwf' & Hset & Hk & Hn).
  rewrite (bind_Ok _ _ _ _ _ _ _ (on_attr_Ok _ _ _ _ _ _ _ _ Hl)). cbv beta iota.
  unfold modify at 1. unfold bind at 1.
  match goal with
  | |- context [GAILRewardProvider.optimizer_step env ?f ?q] =>
      set (loss_of := f); set (p' := GAILRewardProvider.optimizer_step env f q)
  end.
  assert (Hwp : wf_provider p') by (apply optimizer_step_wf; exact Hwf').
  assert (Hb : beta_of (GAILRewardProvider._discriminator_network p') = beta_of net')
    by (unfold p'; rewrite optimizer_step_beta; reflexivity).
  assert (Hst : _settings (GAILRewardProvider._discriminator_network p')
                = _settings (GAILRewardProvider._discriminator_network p)).
  { unfold p'. rewrite optimizer_step_settings. exact Hset. }
  assert (Hu : use_vail (GAILRewardProvider._discriminator_network p')
               = Settings.use_vail (_settings (GAILRewardProvider._discriminator_network p))).
  { destruct Hwp as [Hu _]. rewrite Hu, Hst. reflexivity. }
  exists expert_batch, g0, loss, pm, em, kl, net', g1, p'.
  split; [reflexivity |]. split; [exact Hl |]. split; [| auto 6].
  unfold gets at 1. unfold bind at 1. cbv beta.
  change (GAILRewardProvider.optimizer_step env loss_of
            (GAILRewardProvider.set_network net' p)) with p'.
  rewrite Hu.
  destruct (Settings.use_vail _) eqn:Hv.
  - destruct Hk as [_ Hk]. destruct (Hk eq_refl) as [k ->].
    destruct (vail_present _ Hwp) as [v Hv']; [rewrite Hst; exact Hv |].
    rewrite <- Hb. unfold beta_of, attr, bind, unwrap, ret. rewrite Hv'. reflexivity.
  - destruct kl as [k |]; [destruct Hk as [Hk _]; discriminate Hk; eauto |].
    reflexivity.
Qed.

End Provider.

(** *** Construction *)

(** C9. For every behavior spec and every settings record, the provider that
    [__init__] constructs has its ignore-done flag set to true, whatever the
    configuration and whatever the collaborators return. *)
Theorem init_ignore_done {Adam Base} (env : Collaborators Adam Base) specs settings g :
  GAILRewardProvider._ignore_done
    (fst (GAILRewardProvider.__init__ env specs settings g)) = true.
Proof.
  unfold GAILRewardProvider.__init__.
  destruct (DiscriminatorNetwork.__init__ env specs settings g) as [net g'].
  destruct (demo_to_buffer env _ 1%nat specs) as [s b]. reflexivity.
Qed.

Lemma network_independent_of_loaders {Adam Base} (env : Collaborators Adam Base)
    loader sampler specs settings g :
  DiscriminatorNetwork.__init__ (with_loaders env loader sampler) specs settings g
  = DiscriminatorNetwork.__init__ env specs settings g.
Proof. reflexivity. Qed.

(** C10. Construction loads the demonstration buffer with the loader called at
    sequence length 1, and [update] samples the expert batch at sequence
    length 1: the buffer is the loader's result at 1, and a loader and a
    sampler that agree with the given ones at sequence length 1 (and differ
    anywhere else) give the same provider and the same updates. *)
Theorem sequence_length_is_one {Adam Base} (env : Collaborators Adam Base)
    loader sampler :
  (∀ path specs, loader path 1%nat specs = demo_to_buffer env path 1%nat specs) →
  (∀ buffer n g, sampler buffer n 1%nat g = sample_mini_batch env buffer n 1%nat g) →
  (∀ specs settings g,
     GAILRewardProvider._demo_buffer
       (fst (GAILRewardProvider.__init__ env specs settings g))
     = snd (demo_to_buffer env (Settings.demo_path settings) 1%nat specs)
     ∧ GAILRewardProvider.__init__ (with_loaders env loader sampler) specs settings g
       = GAILRewardProvider.__init__ env specs settings g)
  ∧ (∀ mini_batch p g,
       GAILRewardProvider.update (with_loaders env loader sampler) mini_batch p g
       = GAILRewardProvider.update env mini_batch p g).
Proof.
  intros Hloader Hsampler. split.
  - intros specs settings g. split.
    + unfold GAILRewardProvider.__init__.
      destruct (DiscriminatorNetwork.__init__ env specs settings g) as [net g'].
      destruct (demo_to_buffer env _ 1%nat specs) as [s b]. reflexivity.
    + unfold GAILRewardProvider.__init__.
      rewrite network_independent_of_loaders.
      change (demo_to_buffer (with_loaders env loader sampler)) with loader.
      rewrite Hloader. reflexivity.
  - intros mini_batch p g. unfold GAILRewardProvider.update.
    unfold gets at 1 3. unfold bind at 1 10.
    unfold draw at 1 2. unfold bind at 1 9.
    change (sample_mini_batch (with_loaders env loader sampler)) with sampler.
    change (num_experiences (with_loaders env loader sampler)) with (num_experiences env).
    rewrite Hsampler. reflexivity.
Qed.

(** *** Evaluation *)

Lemma bind_inv {S A B} (c : M S A) (k : A → M S B) s g r :
  bind c k s g = Ok r → ∃ a s' g', c s g = Ok (a, s', g') ∧ k a s' g' = Ok r.
Proof.
  unfold bind. destruct (c s g) as [[[a s'] g'] | e]; [eauto | discriminate].
Qed.

(** The forward pass assigns to nothing, also where it raises. *)
Lemma compute_estimate_frame {Adam Base} (env : Collaborators Adam Base)
    mini_batch noise self g r self' g' :
  compute_estimate env mini_batch noise self g = Ok (r, self', g') → self' = self.
Proof.
  destruct (Settings.use_vail (_settings self)) eqn:Hu.
  - destruct (vail self) as [v |] eqn:Hv.
    + rewrite (compute_estimate_vail env _ _ _ _ v Hv Hu). cbv zeta.
      intros H. injection H as _ <- _. reflexivity.
    + unfold compute_estimate, get_state_encoding, get_action_input, bind, gets, self_,
        ret, attr.
      rewrite Hu. destruct (Settings.use_actions (_settings self)); simpl;
        rewrite Hv; discriminate.
  - rewrite (compute_estimate_plain env _ _ _ _ Hu).
    intros H. injection H as _ <- _. reflexivity.
Qed.

(** C8. [evaluate] leaves the whole provider as it was: the discriminator's
    parameters, [beta], the optimizer state and the demonstration buffer are
    the same after the call as before; and on a provider that satisfies the
    class invariant the call returns. *)
Theorem evaluate_frame {Adam Base} (env : Collaborators Adam Base) mini_batch
    (p : GAILRewardProvider.t Adam Base) g :
  (∀ rewards p' g',
     GAILRewardProvider.evaluate env mini_batch p g = Ok (rewards, p', g') → p' = p)
  ∧ (wf_provider p →
     ∃ rewards g', GAILRewardProvider.evaluate env mini_batch p g = Ok (rewards, p, g')).
Proof.
  split.
  - intros rewards p' g' H. unfold GAILRewardProvider.evaluate in H.
    apply bind_inv in H as ([est mu] & p1 & g1 & Hc & Hr).
    unfold ret in Hr. injection Hr as _ <- _.
    unfold on_attr in Hc.
    destruct (compute_estimate env mini_batch false _ g) as [[[a net'] g2] | e] eqn:He;
      [| discriminate].
    apply compute_estimate_frame in He. subst net'.
    injection Hc as _ <- _. apply set_network_same.
  - intros Hwf.
    destruct (compute_estimate_ok env mini_batch false _ g Hwf) as (est & mu & g' & He & _).
    rewrite (evaluate_run env _ _ _ _ _ _ He). eauto.
Qed.

(** C7. With noise off the sampled latent is the latent mean: a normal sample
    whose standard deviation is [z_sigma * False] is its mean, the estimate of
    a VAIL network is its estimator applied to the latent mean whatever the
    generator holds, and [evaluate] returns the same rewards from any two
    generator states. *)
Theorem evaluate_deterministic {Adam Base} (env : Collaborators Adam Base) mini_batch :
  (∀ z_mu sigma g, fst (normal z_mu (map (fun s => s * of_bool false) sigma) g) = z_mu)
  ∧ (∀ self, wf_network self → Settings.use_vail (_settings self) = true →
       ∃ z_mu, ∀ g, ∃ g',
         compute_estimate env mini_batch false self g
         = Ok ((estimator_forward self z_mu, Some z_mu), self, g'))
  ∧ (∀ (p : GAILRewardProvider.t Adam Base) g1 g2, wf_provider p →
       ∃ rewards g1' g2',
         GAILRewardProvider.evaluate env mini_batch p g1 = Ok (rewards, p, g1')
         ∧ GAILRewardProvider.evaluate env mini_batch p g2 = Ok (rewards, p, g2')).
Proof.
  split; [apply normal_zero_std |]. split.
  - intros self Hwf Hu.
    destruct (compute_estimate_noiseless env mini_batch self Hwf) as (est & mu & Hrun & Hest).
    destruct (compute_estimate_ok env mini_batch false self
                (mkGenerator (fun _ => 0) (fun _ => 0) 0) Hwf)
      as (est' & mu' & g' & He & [_ Hm] & _).
    destruct (Hrun (mkGenerator (fun _ => 0) (fun _ => 0) 0)) as [g'' Hr].
    rewrite Hr in He. injection He as <- <- <-.
    destruct (Hm Hu) as [z_mu ->]. exists z_mu. intros g.
    destruct (Hrun g) as [g1 Hg]. exists g1. rewrite Hg, (Hest z_mu eq_refl). reflexivity.
  - intros p g1 g2 Hwf.
    destruct (compute_estimate_noiseless env mini_batch _ Hwf) as (est & mu & Hrun & _).
    destruct (Hrun g1) as [g1' H1]. destruct (Hrun g2) as [g2' H2].
    exists (map GAILRewardProvider.reward (squeeze_dim1 est)), g1', g2'.
    rewrite (evaluate_run env _ _ _ _ _ _ H1), (evaluate_run env _ _ _ _ _ _ H2). auto.
Qed.

Lemma squeezed_estimate_range est :
  Forall (Forall (fun e => 0 < e < 1)) est →
  Forall (fun e => 0 <= e < 1) (squeeze_dim1 est).
Proof.
  intros H. unfold squeeze_dim1. apply Forall_map.
  eapply Forall_impl; [exact H |]. intros row Hrow.
  destruct Hrow as [| e row He _]; simpl; lra.
Qed.




(** *** The loss *)

(** C5. The fourth component [compute_loss] returns is present exactly when
    [use_vail] is configured, and is [None] otherwise; and on a network that
    satisfies the class invariant [compute_loss] returns, for every pair of
    batches. *)
Theorem compute_loss_kl_present {Adam Base} (env : Collaborators Adam Base)
    policy_batch expert_batch self g :
  (∀ loss policy_mean expert_mean kl self' g',
     compute_loss env policy_batch expert_batch self g
       = Ok ((loss, policy_mean, expert_mean, kl), self', g') →
     (is_Some kl ↔ Settings.use_vail (_settings self) = true)
     ∧ (Settings.use_vail (_settings self) = false → kl = None))
  ∧ (wf_network self →
     ∃ loss policy_mean expert_mean kl self' g',
       compute_loss env policy_batch expert_batch self g
         = Ok ((loss, policy_mean, expert_mean, kl), self', g')).
Proof.
  split.
  - intros loss pm em kl self' g' H. unfold compute_loss in H.
    apply bind_inv in H as ([pe pmu] & s1 & g1 & H1 & H). cbv beta iota in H.
    apply bind_inv in H as ([ee emu] & s2 & g2 & H2 & H). cbv beta iota in H.
    apply compute_estimate_frame in H1. apply compute_estimate_frame in H2. subst s2 s1.
    apply bind_inv in H as (settings & s3 & g3 & H3 & H).
    unfold gets in H3. injection H3 as <- <- <-.
    apply bind_inv in H as ([l k] & s4 & g4 & H4 & H). cbv beta iota in H.
    apply bind_inv in H as (l2 & s5 & g5 & H5 & H).
    unfold ret in H. injection H as _ _ _ <- _ _.
    destruct (Settings.use_vail (_settings self)).
    + apply bind_inv in H4 as (sigma & ? & ? & _ & H4).
      apply bind_inv in H4 as (mu1 & ? & ? & _ & H4).
      apply bind_inv in H4 as (mu2 & ? & ? & _ & H4).
      apply bind_inv in H4 as (b & ? & ? & _ & H4).
      apply bind_inv in H4 as (u & ? & ? & _ & H4).
      unfold ret in H4. injection H4 as _ <- _ _.
      split; [split; eauto | discriminate].
    + unfold ret in H4. injection H4 as _ <- _ _.
      split; [split; [intros [x Hx] |]; discriminate | reflexivity].
  - intros Hwf.
    destruct (compute_loss_ok env policy_batch expert_batch self g Hwf)
      as (loss & pm & em & kl & self' & g' & Hl & _).
    eauto 10.
Qed.

(** *** Updates *)

(** C6. The mapping [update] returns has exactly the three keys of the
    discriminator loss, the policy estimate and the expert estimate when
    [use_vail] is false, and exactly these and the two keys of beta and of the
    KL loss when [use_vail] is true. *)
Theorem update_stats_keys {Adam Base} (env : Collaborators Adam Base) mini_batch
    (p : GAILRewardProvider.t Adam Base) g :
  wf_provider p →
  ∃ stats p' g',
    GAILRewardProvider.update env mini_batch p g = Ok (stats, p', g')
    ∧ dom stats =
        if use_vail (GAILRewardProvider._discriminator_network p)
        then ({["Losses/GAIL Discriminator Loss"; "Policy/GAIL Policy Estimate";
                "Policy/GAIL Expert Estimate"; "Policy/GAIL Beta";
                "Losses/GAIL KL Loss"]} : gset string)
        else {["Losses/GAIL Discriminator Loss"; "Policy/GAIL Policy Estimate";
               "Policy/GAIL Expert Estimate"]}.
Proof.
  intros Hwf.
  destruct (update_run env mini_batch p g Hwf)
    as (eb & g0 & loss & pm & em & kl & net' & g1 & p' & _ & _ & Hu & Hwp & Hb & Hst & Hk).
  eexists. exists p', g1. split; [exact Hu |].
  destruct Hwf as [Hattr _]. rewrite Hattr.
  destruct (Settings.use_vail _) eqn:Hv.
  - destruct (proj2 Hk eq_refl) as [k ->].
    destruct (vail_present _ Hwp) as [v Hv']; [rewrite Hst; exact Hv |].
    rewrite <- Hb. unfold beta_of. rewrite Hv'. simpl.
    rewrite !dom_insert_L, dom_empty_L. set_solver.
  - destruct kl as [k |]; [discriminate (proj1 Hk (ex_intro _ k eq_refl)) |].
    rewrite !dom_insert_L, dom_empty_L. set_solver.
Qed.

(** The provider [update] leaves: the optimizer has stepped on the network
    [compute_loss] left, with the loss as a function of the weights. *)
Lemma update_inv {Adam Base} (env : Collaborators Adam Base) mini_batch
    (p : GAILRewardProvider.t Adam Base) g stats p' g' :
  GAILRewardProvider.update env mini_batch p g = Ok (stats, p', g') →
  ∃ expert_batch g0 result net' g1,
    sample_mini_batch env (GAILRewardProvider._demo_buffer p)
      (num_experiences env mini_batch) 1%nat g = (expert_batch, g0)
    ∧ compute_loss env mini_batch expert_batch
        (GAILRewardProvider._discriminator_network p) g0 = Ok (result, net', g1)
    ∧ p' = GAILRewardProvider.optimizer_step env
             (fun w =>
                fst (fst (fst (value_or (0, 0, 0, None)
                  (compute_loss env mini_batch expert_batch
                     (load_weights w (GAILRewardProvider._discriminator_network p))
                     g0)))))
             (GAILRewardProvider.set_network net' p).
Proof.
  intros H. unfold GAILRewardProvider.update in H.
  apply bind_inv in H as (demo & s1 & g1 & H1 & H).
  unfold gets in H1. injection H1 as <- <- <-.
  apply bind_inv in H as (eb & s2 & g2 & H2 & H).
  unfold draw in H2. destruct (sample_mini_batch env _ _ 1%nat g) as [eb' g0].
  injection H2 as <- <- <-.
  apply bind_inv in H as ([before gb] & s3 & g3 & H3 & H).
  unfold snapshot in H3. injection H3 as <- <- <- <-.
  apply bind_inv in H as ([[[loss pm] em] kl] & s4 & g4 & H4 & H).
  unfold on_attr in H4.
  destruct (compute_loss env mini_batch eb' _ g0) as [[[r net'] g5] | e] eqn:Hl;
    [| discriminate].
  injection H4 as -> <- <-.
  apply bind_inv in H as (u & s5 & g6 & H5 & H).
  unfold modify in H5. injection H5 as _ <- <-.
  apply bind_inv in H as (uv & s6 & g7 & H6 & H).
  unfold gets in H6. injection H6 as _ <- <-.
  exists eb', g0, (loss, pm, em, kl), net', g5.
  split; [reflexivity |]. split; [exact Hl |].
  destruct uv.
  - apply bind_inv in H as (b & s7 & g8 & H7 & H).
    unfold attr in H7.
    destruct (beta <$> vail _) as [b' |]; [| discriminate].
    injection H7 as _ <- <-.
    apply bind_inv in H as (k & s8 & g9 & H8 & H).
    destruct kl as [k' |]; [| discriminate].
    unfold unwrap, ret in H8. injection H8 as _ <- <-.
    unfold ret in H. injection H as _ <- _. reflexivity.
  - unfold ret in H. injection H as _ <- _. reflexivity.
Qed.

Lemma beta_of_set_beta b self v : vail self = Some v → beta_of (set_beta b self) = Some b.
Proof. intros Hv. unfold beta_of, set_beta. simpl. rewrite Hv. reflexivity. Qed.

Lemma load_weights_vail w self v :
  vail self = Some v →
  ∃ v', vail (load_weights w self) = Some v' ∧ beta v' = beta v.
Proof. intros Hv. unfold load_weights. simpl. rewrite Hv. destruct (w_vail w); eauto. Qed.

Lemma parameters_set_beta b self : parameters (set_beta b self) = parameters self.
Proof. unfold parameters, set_beta. simpl. destruct (vail self); reflexivity. Qed.

(** The loss as a function of the weights: whatever the weights, beta is the
    beta of the network they are loaded into. *)
Lemma loss_of_weights {Adam Base} (env : Collaborators Adam Base)
    policy_batch expert_batch self g v w :
  wf_network self → vail self = Some v →
  ∃ pe pmu g1 ee emu g2 magnitude g3 sigma,
    compute_estimate env policy_batch true (load_weights w self) g
      = Ok ((pe, Some pmu), load_weights w self, g1)
    ∧ compute_estimate env expert_batch true (load_weights w self) g1
      = Ok ((ee, Some emu), load_weights w self, g2)
    ∧ compute_gradient_magnitude env policy_batch expert_batch (load_weights w self) g2
      = Ok (magnitude, load_weights w self, g3)
    ∧ z_sigma <$> vail (load_weights w self) = Some sigma
    ∧ fst (fst (fst (value_or (0, 0, 0, None)
        (compute_loss env policy_batch expert_batch (load_weights w self) g))))
      = adversarial_loss pe ee + beta v * (kl_divergence sigma emu pmu - 0.5)
        + 10 * magnitude.
Proof.
  intros Hwf Hv. destruct (load_weights_vail w self v Hv) as (v' & Hv' & Hb).
  destruct (compute_loss_vail env policy_batch expert_batch _ g v'
              (load_weights_wf w self Hwf) Hv')
    as (pe & pmu & g1 & ee & emu & g2 & magnitude & g3 & Hp & He & Hg & Hl).
  exists pe, pmu, g1, ee, emu, g2, magnitude, g3, (z_sigma v').
  split; [exact Hp |]. split; [exact He |]. split; [exact Hg |].
  split; [rewrite Hv'; reflexivity |].
  rewrite Hl. simpl. rewrite Hb. unfold mutual_information, gradient_penalty_weight. lra.
Qed.

Lemma zero_decimal : 0.0 = 0.
Proof. lra. Qed.

Lemma beta_rule b kl :
  Rmax (b + alpha * (kl - mutual_information)) 0.0 = Rmax 0 (b + 0.0005 * (kl - 0.5)).
Proof. unfold alpha, mutual_information. rewrite zero_decimal. apply Rmax_comm. Qed.

Lemma compute_loss_beta {Adam Base} (env : Collaborators Adam Base)
    policy_batch expert_batch self g v :
  wf_network self → vail self = Some v →
  ∃ loss policy_mean expert_mean kl self' g',
    compute_loss env policy_batch expert_batch self g
      = Ok ((loss, policy_mean, expert_mean, Some kl), self', g')
    ∧ wf_network self'
    ∧ beta_of self' = Some (Rmax 0 (beta v + 0.0005 * (kl - 0.5))).
Proof.
  intros Hwf Hv.
  destruct (compute_loss_ok env policy_batch expert_batch self g Hwf)
    as (loss & pm & em & kl & self' & g' & Hl & Hwf' & _ & Hk & Hs).
  assert (Hu : Settings.use_vail (_settings self) = true)
    by (apply (proj2 Hwf); rewrite Hv; eauto).
  destruct (proj2 Hk Hu) as [k ->]. rewrite Hv in Hs.
  exists loss, pm, em, k, self', g'. split; [exact Hl |]. split; [exact Hwf' |].
  rewrite Hs. unfold beta_of, set_beta. simpl. rewrite Hv. simpl.
  now rewrite beta_rule.
Qed.

Lemma update_beta {Adam Base} (env : Collaborators Adam Base) mini_batch
    (p : GAILRewardProvider.t Adam Base) g v :
  wf_provider p → vail (GAILRewardProvider._discriminator_network p) = Some v →
  ∃ stats p' g' kl,
    GAILRewardProvider.update env mini_batch p g = Ok (stats, p', g')
    ∧ wf_provider p'
    ∧ stats !! "Losses/GAIL KL Loss" = Some kl
    ∧ beta_of (GAILRewardProvider._discriminator_network p')
      = Some (Rmax 0 (beta v + 0.0005 * (kl - 0.5)))
    ∧ stats !! "Policy/GAIL Beta"
      = beta_of (GAILRewardProvider._discriminator_network p').
Proof.
  intros Hwf Hv.
  destruct (update_run env mini_batch p g Hwf)
    as (eb & g0 & loss & pm & em & kl & net' & g1 & p' & _ & Hl & Hu & Hwp & Hb & _ & _).
  destruct (compute_loss_beta env mini_batch eb _ g0 v Hwf Hv)
    as (? & ? & ? & k & ? & ? & Hl' & _ & Hbeta).
  rewrite Hl in Hl'. injection Hl' as <- <- <- -> <- <-.
  rewrite Hbeta in Hu. eexists. exists p', g1, k. split; [exact Hu |]. split; [exact Hwp |].
  rewrite Hb, Hbeta. split; [| split; [reflexivity |]].
  - apply lookup_insert_eq.
  - rewrite lookup_insert_ne by discriminate. apply lookup_insert_eq.
Qed.

(** C2. With VAIL on, every call of [compute_loss] sets beta to
    [max(0, old_beta + 0.0005 * (kl_loss - 0.5))], which is non-negative for
    every KL value, and the update is no part of what is differentiated:
    - the loss returned is the binary cross entropy, plus the beta of before
      the call times [kl_loss - 0.5], plus ten times the gradient penalty,
      each part computed on the network of before the call, and the update
      leaves the tensors that receive a gradient as they are;
    - in [update], the loss the optimizer differentiates is, for all weights
      [w], the binary cross entropy plus [c * (kl_loss - 0.5)] plus ten times
      the gradient penalty, each part computed with the weights [w], where [c]
      is one number for all [w] and a value of beta (that of before the call
      or the updated one, according to when the backward pass reads the
      tensor): beta is a constant of the backward pass, the rule that updates
      it from the KL loss is not a term of what is differentiated; the
      optimizer step does not move beta, so that the beta [update] reports is
      the updated value for the KL loss it reports;
    - after any sequence of updates from a non-negative beta, beta is
      non-negative. *)
Theorem beta_update_nonneg {Adam Base} (env : Collaborators Adam Base) :
  (∀ policy_batch expert_batch self g v,
     wf_network self → vail self = Some v →
     ∃ pe pmu g1 ee emu g2 magnitude g3 kl self',
       compute_estimate env policy_batch true self g = Ok ((pe, pmu), self, g1)
       ∧ compute_estimate env expert_batch true self g1 = Ok ((ee, emu), self, g2)
       ∧ compute_gradient_magnitude env policy_batch expert_batch self g2
         = Ok (magnitude, self, g3)
       ∧ compute_loss env policy_batch expert_batch self g
         = Ok ((adversarial_loss pe ee + beta v * (kl - 0.5) + 10 * magnitude,
                mean2 pe, mean2 ee, Some kl), self', g3)
       ∧ beta_of self' = Some (Rmax 0 (beta v + 0.0005 * (kl - 0.5)))
       ∧ 0 <= Rmax 0 (beta v + 0.0005 * (kl - 0.5))
       ∧ parameters self' = parameters self)
  ∧ (∀ mini_batch (p : GAILRewardProvider.t Adam Base) g v,
       wf_provider p → vail (GAILRewardProvider._discriminator_network p) = Some v →
       ∃ stats p' g' kl,
         GAILRewardProvider.update env mini_batch p g = Ok (stats, p', g')
         ∧ stats !! "Losses/GAIL KL Loss" = Some kl
         ∧ beta_of (GAILRewardProvider._discriminator_network p')
           = Some (Rmax 0 (beta v + 0.0005 * (kl - 0.5)))
         ∧ stats !! "Policy/GAIL Beta"
           = beta_of (GAILRewardProvider._discriminator_network p')
         ∧ ∃ expert_batch g0 net' loss_of c,
             sample_mini_batch env (GAILRewardProvider._demo_buffer p)
               (num_experiences env mini_batch) 1%nat g = (expert_batch, g0)
             ∧ p' = GAILRewardProvider.optimizer_step env loss_of
                      (GAILRewardProvider.set_network net' p)
             ∧ parameters net' = parameters (GAILRewardProvider._discriminator_network p)
             ∧ (c = beta v ∨ c = Rmax 0 (beta v + 0.0005 * (kl - 0.5)))
             ∧ ∀ w,
                 let net_w := load_weights w (GAILRewardProvider._discriminator_network p) in
                 ∃ pe pmu g1 ee emu g2 magnitude g3 sigma,
                   compute_estimate env mini_batch true net_w g0
                     = Ok ((pe, Some pmu), net_w, g1)
                   ∧ compute_estimate env expert_batch true net_w g1
                     = Ok ((ee, Some emu), net_w, g2)
                   ∧ compute_gradient_magnitude env mini_batch expert_batch net_w g2
                     = Ok (magnitude, net_w, g3)
                   ∧ z_sigma <$> vail net_w = Some sigma
                   ∧ loss_of w
                     = adversarial_loss pe ee + c * (kl_divergence sigma emu pmu - 0.5)
                       + 10 * magnitude)
  ∧ (∀ batches (p : GAILRewardProvider.t Adam Base) g b0,
       wf_provider p →
       beta_of (GAILRewardProvider._discriminator_network p) = Some b0 → 0 <= b0 →
       ∃ stats p' g' b,
         for_each batches (GAILRewardProvider.update env) p g = Ok (stats, p', g')
         ∧ beta_of (GAILRewardProvider._discriminator_network p') = Some b
         ∧ 0 <= b).
Proof.
  split; [| split].
  - intros pb eb self g v Hwf Hv.
    destruct (compute_loss_vail env pb eb self g v Hwf Hv)
      as (pe & pmu & g1 & ee & emu & g2 & magnitude & g3 & Hp & He & Hg & Hl).
    set (kl := kl_divergence (z_sigma v) emu pmu) in *.
    exists pe, (Some pmu), g1, ee, (Some emu), g2, magnitude, g3, kl.
    eexists. split; [exact Hp |]. split; [exact He |]. split; [exact Hg |].
    split; [| split; [| split; [apply Rmax_l | apply parameters_set_beta]]].
    + rewrite Hl. unfold mutual_information, gradient_penalty_weight.
      replace (10.0 * magnitude) with (10 * magnitude) by lra. reflexivity.
    + unfold beta_of, set_beta. simpl. rewrite Hv. simpl. now rewrite beta_rule.
  - intros mb p g v Hwf Hv.
    destruct (update_beta env mb p g v Hwf Hv)
      as (stats & p' & g' & kl & Hu & _ & Hk & Hb & Hs).
    exists stats, p', g', kl.
    split; [exact Hu |]. split; [exact Hk |]. split; [exact Hb |]. split; [exact Hs |].
    destruct (update_inv env _ _ _ _ _ _ Hu) as (eb & g0 & r & net' & g1 & Hsample & Hl & Hp').
    destruct (compute_loss_vail env mb eb _ g0 v Hwf Hv)
      as (? & ? & ? & ? & ? & ? & ? & ? & _ & _ & _ & Hl').
    rewrite Hl in Hl'. injection Hl' as _ -> _.
    eexists eb, g0, _, _, (beta v).
    split; [exact Hsample |]. split; [exact Hp' |].
    split; [apply parameters_set_beta |]. split; [left; reflexivity |].
    intros w. cbv zeta. apply (loss_of_weights env mb eb _ g0 v w Hwf Hv).
  - intros batches. induction batches as [| mb batches IH]; intros p g b0 Hwf Hb H0.
    + exists [], p, g, b0. simpl. auto.
    + unfold beta_of in Hb.
      destruct (vail (GAILRewardProvider._discriminator_network p)) as [v |] eqn:Hv;
        [| discriminate].
      destruct (update_beta env mb p g v Hwf Hv)
        as (stats & p1 & g1 & kl & Hu & Hwf1 & _ & Hb1 & _).
      destruct (IH p1 g1 _ Hwf1 Hb1 (Rmax_l _ _)) as (rest & p' & g' & b & Hr & Hb' & Hb0).
      exists (stats :: rest), p', g', b. split; [| auto].
      simpl. rewrite (bind_Ok _ _ _ _ _ _ _ Hu). rewrite (bind_Ok _ _ _ _ _ _ _ Hr).
      reflexivity.
Qed.

(** *** The adversarial loss *)

Lemma column_tensor (t : Tensor2) :
  Forall (fun row => length row = 1%nat) t → t = map (fun x => [x]) (squeeze_dim1 t).
Proof.
  induction 1 as [| row t Hrow _ IH]; simpl; [reflexivity |].
  rewrite <- IH. destruct row as [| x [| y row]]; try discriminate. reflexivity.
Qed.

Lemma zip_with_nth (f : R → R → R) (E P : Tensor1) :
  length E = length P →
  zip_with f E P = map (fun i => f (nth i E 0) (nth i P 0)) (seq 0 (length P)).
Proof.
  revert E. induction P as [| p P IH]; intros [| e E] Hlen; try discriminate; simpl;
    [reflexivity |].
  f_equal. rewrite <- seq_shift, map_map. apply IH. now injection Hlen.
Qed.

Lemma adversarial_terms (E P : Tensor1) :
  concat (tadd (tmap ln (muls (map (fun x => [x]) E) (1 - EPSILON)))
               (tmap ln (rsub 1.0 (muls (map (fun x => [x]) P) (1 - EPSILON)))))
  = zip_with (fun e p => ln (e * (1 - EPSILON)) + ln (1.0 - p * (1 - EPSILON))) E P.
Proof.
  revert P. induction E as [| e E IH]; intros [| p P]; simpl; try reflexivity.
  f_equal. apply IH.
Qed.

(** On estimates of shape (N,1), the loss of lines 186 to 189 is the binary
    cross entropy over the N experiences. *)
Lemma adversarial_loss_refines (pe ee : Tensor2) :
  length pe = length ee →
  Forall (fun row => length row = 1%nat) pe →
  Forall (fun row => length row = 1%nat) ee →
  adversarial_loss pe ee = adversarial_loss_spec (squeeze_dim1 pe) (squeeze_dim1 ee).
Proof.
  intros Hlen Hp He. unfold adversarial_loss, adversarial_loss_spec, mean2, mean1.
  assert (Hc : concat (tadd (tmap ln (muls ee (1 - EPSILON)))
                            (tmap ln (rsub 1.0 (muls pe (1 - EPSILON)))))
               = zip_with (fun e p => ln (e * (1 - EPSILON)) + ln (1.0 - p * (1 - EPSILON)))
                   (squeeze_dim1 ee) (squeeze_dim1 pe)).
  { rewrite <- adversarial_terms.
    rewrite <- (column_tensor pe Hp), <- (column_tensor ee He). reflexivity. }
  rewrite Hc.
  assert (Hl : length (squeeze_dim1 ee) = length (squeeze_dim1 pe))
    by (unfold squeeze_dim1; rewrite !length_map; auto).
  rewrite (zip_with_nth _ _ _ Hl), length_map, length_seq.
  do 3 f_equal. apply map_ext. intros i. do 2 f_equal. lra.
Qed.

(** C4. For equal-size batches (estimates of shape (N,1) for one N), the
    adversarial part of what [compute_loss] returns is minus the mean over the
    experiences of [log(expert_estimate * (1 - 1e-7))
    + log(1 - policy_estimate * (1 - 1e-7))], for the estimates computed with
    [use_vail_noise=True] for the policy batch and then for the expert batch;
    the other parts are the VAIL term, from the beta of before the call, and
    the weighted gradient penalty. *)
Theorem compute_loss_adversarial {Adam Base} (env : Collaborators Adam Base)
    policy_batch expert_batch self g pe pmu g1 ee emu g2 :
  wf_network self →
  compute_estimate env policy_batch true self g = Ok ((pe, pmu), self, g1) →
  compute_estimate env expert_batch true self g1 = Ok ((ee, emu), self, g2) →
  length pe = length ee →
  Forall (fun row => length row = 1%nat) pe →
  Forall (fun row => length row = 1%nat) ee →
  ∃ kl self' magnitude g3,
    compute_gradient_magnitude env policy_batch expert_batch self' g2
      = Ok (magnitude, self', g3)
    ∧ compute_loss env policy_batch expert_batch self g
      = Ok ((adversarial_loss_spec (squeeze_dim1 pe) (squeeze_dim1 ee)
             + match kl, beta_of self with
               | Some k, Some b => b * (k - 0.5)
               | _, _ => 0
               end
             + 10 * magnitude,
             mean2 pe, mean2 ee, kl), self', g3).
Proof.
  intros Hwf Hp He Hlen Hcp Hce.
  destruct (compute_loss_run env _ _ _ _ _ _ _ _ _ _ Hwf Hp He)
    as (kl & self' & magnitude & g3 & Hg & Hl & _ & _).
  exists kl, self', magnitude, g3. split; [exact Hg |].
  rewrite Hl, (adversarial_loss_refines pe ee Hlen Hcp Hce).
  replace (gradient_penalty_weight * magnitude) with (10 * magnitude)
    by (unfold gradient_penalty_weight; lra).
  unfold beta_of. destruct kl, (vail self); reflexivity.
Qed.

(** *** The interpolated input of the gradient penalty *)

(** C1. On one experience where the policy acted with 1 and the expert with
    0, and every interpolation coefficient drawn is 1/2: the observation group
    and the done group of the interpolated input mix the policy batch with the
    expert batch as [eps * policy + (1 - eps) * expert], but the action group
    is 1, the policy's action mixed with itself, where the mix with the
    expert's action is 1/2. *)
Theorem interpolated_actions_ignore_expert :
  ∃ obs act dones g',
    interpolated_groups Example.policy_batch Example.expert_batch
      (Example.network true false) Example.generator
    = Ok ([obs; act; dones], Example.network true false, g')
    ∧ obs = interpolate_spec [[1 / 2]] [[2]] [[4]]
    ∧ dones = interpolate_spec [[1 / 2]] [[1]] [[0]]
    ∧ act = [[1]]
    ∧ interpolate_spec [[1 / 2]] [[1]] [[0]] = [[1 / 2]]
    ∧ act ≠ interpolate_spec [[1 / 2]] [[1]] [[0]].
Proof.
  rewrite interpolated_groups_actions by reflexivity. cbv zeta.
  do 4 eexists. split; [reflexivity |].
  assert (Hact : [[1 / 2 * 1 + (1 - 1 / 2) * 1]] = [[1]]) by (do 2 f_equal; lra).
  assert (Hspec : interpolate_spec [[1 / 2]] [[1]] [[0]] = [[1 / 2]])
    by (unfold interpolate_spec; simpl; do 2 f_equal; lra).
  split; [reflexivity |]. split; [reflexivity |]. split; [exact Hact |].
  split; [exact Hspec |]. rewrite Hspec.
  intros H. apply (f_equal (fun t => hd 0 (hd [] t))) in H. simpl in H. lra.
Qed.

(** *** The theorems at the concrete instance *)

Lemma sequence_length_is_one_witness :
  GAILRewardProvider.__init__
    (with_loaders Example.env Example.other_loader Example.other_sampler)
    Example.specs (Example.settings true true) Example.generator
  = GAILRewardProvider.__init__ Example.env Example.specs (Example.settings true true)
      Example.generator
  ∧ GAILRewardProvider.update
      (with_loaders Example.env Example.other_loader Example.other_sampler)
      Example.policy_batch (Example.provider true true) Example.generator
    = GAILRewardProvider.update Example.env Example.policy_batch
        (Example.provider true true) Example.generator.
Proof.
  destruct (sequence_length_is_one Example.env Example.other_loader Example.other_sampler)
    as [Hinit Hupdate]; [intros; reflexivity | intros; reflexivity |].
  split; [apply Hinit | apply Hupdate].
Defined.

Lemma evaluate_frame_witness :
  ∃ rewards g',
    GAILRewardProvider.evaluate Example.env Example.policy_batch
      (Example.provider true true) Example.generator
    = Ok (rewards, Example.provider true true, g').
Proof.
  apply (proj2 (evaluate_frame Example.env Example.policy_batch
                  (Example.provider true true) Example.generator)).
  apply provider_init_wf.
Defined.

Lemma evaluate_deterministic_witness :
  (∃ z_mu, ∀ g, ∃ g',
     compute_estimate Example.env Example.policy_batch false (Example.network true true) g
     = Ok ((estimator_forward (Example.network true true) z_mu, Some z_mu),
           Example.network true true, g'))
  ∧ (∃ rewards g1' g2',
       GAILRewardProvider.evaluate Example.env Example.policy_batch
         (Example.provider true true) Example.generator
       = Ok (rewards, Example.provider true true, g1')
       ∧ GAILRewardProvider.evaluate Example.env Example.policy_batch
           (Example.provider true true) Example.other_generator
         = Ok (rewards, Example.provider true true, g2')).
Proof.
  destruct (evaluate_deterministic Example.env Example.policy_batch) as (_ & Hest & Heval).
  split.
  - apply Hest; [apply network_init_wf | reflexivity].
  - apply Heval. apply provider_init_wf.
Defined.


Lemma compute_loss_kl_present_witness :
  (∃ loss policy_mean expert_mean kl self' g',
     compute_loss Example.env Example.policy_batch Example.expert_batch
       (Example.network true true) Example.generator
     = Ok ((loss, policy_mean, expert_mean, kl), self', g')
     ∧ is_Some kl)
  ∧ (∃ loss policy_mean expert_mean self' g',
       compute_loss Example.env Example.policy_batch Example.expert_batch
         (Example.network true false) Example.generator
       = Ok ((loss, policy_mean, expert_mean, None), self', g')).
Proof.
  split.
  - destruct (compute_loss_kl_present Example.env Example.policy_batch Example.expert_batch
                (Example.network true true) Example.generator) as [Hiff Hret].
    destruct (Hret (network_init_wf _ _ _ _)) as (loss & pm & em & kl & self' & g' & Hl).
    exists loss, pm, em, kl, self', g'. split; [exact Hl |].
    apply (proj1 (Hiff _ _ _ _ _ _ Hl)). reflexivity.
  - destruct (compute_loss_kl_present Example.env Example.policy_batch Example.expert_batch
                (Example.network true false) Example.generator) as [Hiff Hret].
    destruct (Hret (network_init_wf _ _ _ _)) as (loss & pm & em & kl & self' & g' & Hl).
    exists loss, pm, em, self', g'.
    rewrite <- (proj2 (Hiff _ _ _ _ _ _ Hl) eq_refl). exact Hl.
Defined.

Lemma update_stats_keys_witness :
  (∃ stats p' g',
     GAILRewardProvider.update Example.env Example.policy_batch
       (Example.provider true true) Example.generator = Ok (stats, p', g')
     ∧ dom stats =
         ({["Losses/GAIL Discriminator Loss"; "Policy/GAIL Policy Estimate";
            "Policy/GAIL Expert Estimate"; "Policy/GAIL Beta";
            "Losses/GAIL KL Loss"]} : gset string))
  ∧ (∃ stats p' g',
       GAILRewardProvider.update Example.env Example.policy_batch
         (Example.provider false false) Example.generator = Ok (stats, p', g')
       ∧ dom stats =
           ({["Losses/GAIL Discriminator Loss"; "Policy/GAIL Policy Estimate";
              "Policy/GAIL Expert Estimate"]} : gset string)).
Proof.
  split.
  - apply (update_stats_keys Example.env Example.policy_batch (Example.provider true true)
             Example.generator (provider_init_wf _ _ _ _)).
  - apply (update_stats_keys Example.env Example.policy_batch (Example.provider false false)
             Example.generator (provider_init_wf _ _ _ _)).
Defined.

Lemma beta_update_nonneg_witness :
  (∃ loss policy_mean expert_mean kl self' g',
     compute_loss Example.env Example.policy_batch Example.expert_batch
       (Example.network true true) Example.generator
     = Ok ((loss, policy_mean, expert_mean, Some kl), self', g')
     ∧ beta_of self' = Some (Rmax 0 (0.0 + 0.0005 * (kl - 0.5)))
     ∧ 0 <= Rmax 0 (0.0 + 0.0005 * (kl - 0.5))
     ∧ parameters self' = parameters (Example.network true true))
  ∧ (∃ stats p' g' kl net' loss_of,
       GAILRewardProvider.update Example.env Example.policy_batch
         (Example.provider true true) Example.generator = Ok (stats, p', g')
       ∧ stats !! "Losses/GAIL KL Loss" = Some kl
       ∧ beta_of (GAILRewardProvider._discriminator_network p')
         = Some (Rmax 0 (0.0 + 0.0005 * (kl - 0.5)))
       ∧ stats !! "Policy/GAIL Beta"
         = beta_of (GAILRewardProvider._discriminator_network p')
       ∧ p' = GAILRewardProvider.optimizer_step Example.env loss_of
                (GAILRewardProvider.set_network net' (Example.provider true true)))
  ∧ (∃ stats p' g' b,
       for_each [Example.policy_batch; Example.expert_batch]
         (GAILRewardProvider.update Example.env) (Example.provider true true)
         Example.generator = Ok (stats, p', g')
       ∧ beta_of (GAILRewardProvider._discriminator_network p') = Some b
       ∧ 0 <= b).
Proof.
  destruct (beta_update_nonneg Example.env) as (Hloss & Hupdate & Hsequence).
  split; [| split].
  - destruct (Hloss Example.policy_batch Example.expert_batch (Example.network true true)
                Example.generator (mkVail _ _ 0.0) (network_init_wf _ _ _ _) eq_refl)
      as (pe & pmu & g1 & ee & emu & g2 & magnitude & g3 & kl & self'
          & _ & _ & _ & Hl & Hb & H0 & Hpar).
    do 3 eexists. exists kl, self', g3. split; [exact Hl |].
    split; [exact Hb |]. split; [exact H0 | exact Hpar].
  - destruct (Hupdate Example.policy_batch (Example.provider true true) Example.generator
                (mkVail _ _ 0.0) (provider_init_wf _ _ _ _) eq_refl)
      as (stats & p' & g' & kl & Hu & Hk & Hb & Hs & eb & g0 & net' & loss_of & c
          & _ & Hp' & _).
    exists stats, p', g', kl, net', loss_of. auto.
  - apply (Hsequence _ (Example.provider true true) Example.generator 0.0
             (provider_init_wf _ _ _ _) eq_refl).
    lra.
Defined.

Lemma compute_loss_adversarial_witness :
  ∃ pe ee kl self' magnitude g3,
    length pe = 1%nat ∧ length ee = 1%nat
    ∧ compute_loss Example.env Example.policy_batch Example.expert_batch
        (Example.network true false) Example.generator
      = Ok ((adversarial_loss_spec (squeeze_dim1 pe) (squeeze_dim1 ee)
             + match kl, beta_of (Example.network true false) with
               | Some k, Some b => b * (k - 0.5)
               | _, _ => 0
               end
             + 10 * magnitude,
             mean2 pe, mean2 ee, kl), self', g3).
Proof.
  destruct (compute_loss_adversarial Example.env Example.policy_batch Example.expert_batch
              (Example.network true false) Example.generator _ _ _ _ _ _
              (network_init_wf _ _ _ _)
              (compute_estimate_plain Example.env Example.policy_batch true
                 (Example.network true false) Example.generator eq_refl)
              (compute_estimate_plain Example.env Example.expert_batch true
                 (Example.network true false) Example.generator eq_refl))
    as (kl & self' & magnitude & g3 & _ & Hloss).
  - reflexivity.
  - repeat constructor.
  - repeat constructor.
  - do 6 eexists. split; [| split; [| exact Hloss]]; reflexivity.
Defined.

(** ** Further properties of the discriminator and of the provider *)

(** *** Estimates and rewards *)

(** What the forward pass returns when it returns: estimates strictly between
    0 and 1, a latent mean exactly with VAIL, and the network as it was. *)
Lemma compute_estimate_inv {Adam Base} (env : Collaborators Adam Base)
    mini_batch noise self g est mu self' g' :
  compute_estimate env mini_batch noise self g = Ok ((est, mu), self', g') →
  Forall (Forall (fun e => 0 < e < 1)) est
  ∧ (is_Some mu ↔ Settings.use_vail (_settings self) = true)
  ∧ self' = self.
Proof.
  destruct (Settings.use_vail (_settings self)) eqn:Hu.
  - destruct (vail self) as [v |] eqn:Hv.
    + rewrite (compute_estimate_vail env _ _ _ _ v Hv Hu). cbv zeta.
      intros H. injection H as <- <- <- _.
      split; [apply estimator_forward_range |]. split; [split; eauto | reflexivity].
    + unfold compute_estimate, get_state_encoding, get_action_input, bind, gets, self_,
        ret, attr.
      rewrite Hu. destruct (Settings.use_actions (_settings self)); simpl;
        rewrite Hv; discriminate.
  - rewrite (compute_estimate_plain env _ _ _ _ Hu).
    intros H. injection H as <- <- <- _.
    split; [apply estimator_forward_range |].
    split; [split; [intros [x Hx] |]; discriminate | reflexivity].
Qed.

(** X1. Whenever [compute_estimate] returns, every entry of the estimate lies
    between 0 and 1, the latent mean is present exactly when [use_vail] is
    configured, and the network is the one before the call. *)
Theorem compute_estimate_range {Adam Base} (env : Collaborators Adam Base)
    mini_batch noise self g est mu self' g' :
  compute_estimate env mini_batch noise self g = Ok ((est, mu), self', g') →
  Forall (Forall (fun e => 0 <= e <= 1)) est
  ∧ (is_Some mu ↔ Settings.use_vail (_settings self) = true)
  ∧ self' = self.
Proof.
  intros H. apply compute_estimate_inv in H as (Hr & Hmu & Hs).
  split; [| split; assumption].
  eapply Forall_impl; [exact Hr |]. intros row Hrow.
  eapply Forall_impl; [exact Hrow |]. intros e He. simpl in He. lra.
Qed.

Lemma compute_estimate_range_witness :
  Forall (Forall (fun e => 0 <= e <= 1))
    (estimator_forward (Example.network true false)
       (hidden_of Example.env (Example.network true false) Example.policy_batch))
  ∧ (is_Some (@None Tensor2)
     ↔ Settings.use_vail (_settings (Example.network true false)) = true)
  ∧ Example.network true false = Example.network true false.
Proof.
  apply (compute_estimate_range Example.env Example.policy_batch false
           (Example.network true false) Example.generator _ _ _ _
           (compute_estimate_plain Example.env Example.policy_batch false
              (Example.network true false) Example.generator eq_refl)).
Defined.

Lemma reward_below_cap e : 0 <= e < 1 → GAILRewardProvider.reward e < - ln 1e-7.
Proof.
  intros He. unfold GAILRewardProvider.reward.
  pose proof (log_argument_range e He) as [Hl _]. unfold EPSILON in Hl.
  apply Ropp_lt_contravar, ln_increasing; [lra | unfold EPSILON; exact Hl].
Qed.

(** X2. Every reward [evaluate] returns is at least 0 and strictly below
    [-log(1e-7)]: the epsilon inside the logarithm caps the reward. *)
Theorem evaluate_rewards_bounded {Adam Base} (env : Collaborators Adam Base)
    mini_batch (p : GAILRewardProvider.t Adam Base) g rewards p' g' :
  GAILRewardProvider.evaluate env mini_batch p g = Ok (rewards, p', g') →
  Forall (fun r => 0 <= r < - ln 1e-7) rewards.
Proof.
  intros H. unfold GAILRewardProvider.evaluate in H.
  apply bind_inv in H as ([est mu] & p1 & g1 & Hc & Hr).
  unfold ret in Hr. injection Hr as <- _ _.
  unfold on_attr in Hc.
  destruct (compute_estimate env mini_batch false _ g) as [[[[est' mu'] net'] g2] | e] eqn:He;
    [| discriminate].
  injection Hc as <- _ _ _.
  apply compute_estimate_inv in He as (Hrange & _ & _).
  apply Forall_map. eapply Forall_impl; [apply squeezed_estimate_range, Hrange |].
  intros e He'. split; [apply reward_nonneg, He' | apply reward_below_cap, He'].
Qed.

Lemma evaluate_rewards_bounded_witness :
  ∃ rewards g',
    GAILRewardProvider.evaluate Example.env Example.policy_batch
      (Example.provider true true) Example.generator
    = Ok (rewards, Example.provider true true, g')
    ∧ Forall (fun r => 0 <= r < - ln 1e-7) rewards.
Proof.
  destruct (compute_estimate_ok Example.env Example.policy_batch false
              (GAILRewardProvider._discriminator_network (Example.provider true true))
              Example.generator (provider_init_wf _ _ _ _))
    as (est & mu & g' & He & _).
  pose proof (evaluate_run Example.env _ _ _ _ _ _ He) as Hrun.
  exists (map GAILRewardProvider.reward (squeeze_dim1 est)), g'.
  split; [exact Hrun |].
  exact (evaluate_rewards_bounded Example.env _ _ _ _ _ _ Hrun).
Defined.

(** X3. Without VAIL the noise flag of [compute_estimate] has no effect and
    nothing is drawn: for either value of the flag and from any generator
    state the call returns one and the same estimate, no latent mean, and the
    generator untouched. *)
Theorem compute_estimate_without_vail {Adam Base} (env : Collaborators Adam Base)
    mini_batch self :
  Settings.use_vail (_settings self) = false →
  ∃ est, ∀ noise g,
    compute_estimate env mini_batch noise self g = Ok ((est, None), self, g).
Proof.
  intros Hu. eexists. intros noise g. apply (compute_estimate_plain env _ _ _ _ Hu).
Qed.

Lemma compute_estimate_without_vail_witness :
  ∃ est, ∀ noise g,
    compute_estimate Example.env Example.policy_batch noise (Example.network true false) g
    = Ok ((est, None), Example.network true false, g).
Proof.
  apply (compute_estimate_without_vail Example.env Example.policy_batch
           (Example.network true false)).
  reflexivity.
Defined.

(** X4. With [use_actions] off the estimate does not depend on the actions or
    on the done flags of the batch: two batches with the same observations get
    the same result. *)
Theorem compute_estimate_ignores_actions {Adam Base} (env : Collaborators Adam Base)
    batch1 batch2 noise self g :
  Settings.use_actions (_settings self) = false →
  vector_obs batch1 = vector_obs batch2 →
  visual_obs batch1 = visual_obs batch2 →
  compute_estimate env batch1 noise self g = compute_estimate env batch2 noise self g.
Proof.
  intros Ha Hvec Hvis.
  unfold compute_estimate, get_state_encoding, bind, gets, self_, ret.
  rewrite Ha, Hvec, Hvis. reflexivity.
Qed.

Lemma compute_estimate_ignores_actions_witness :
  compute_estimate Example.env Example.policy_batch true (Example.network false true)
    Example.generator
  = compute_estimate Example.env
      {| vector_obs := [[2]]; visual_obs := []; actions := [[5]; [6]]; done := [] |}
      true (Example.network false true) Example.generator.
Proof.
  apply (compute_estimate_ignores_actions Example.env); reflexivity.
Defined.

(** *** The gradient penalty *)

Lemma Rsum_nonneg (v : Tensor1) : Forall (fun x => 0 <= x) v → 0 <= Rsum v.
Proof. induction 1 as [| x v Hx _ IH]; simpl; lra. Qed.

Lemma mean1_nonneg (v : Tensor1) : Forall (fun x => 0 <= x) v → 0 <= mean1 v.
Proof.
  intros Hv. unfold mean1, Rdiv. apply Rmult_le_pos; [apply Rsum_nonneg, Hv |].
  destruct v as [| x v]; [simpl; rewrite Rinv_0; lra |].
  left. apply Rinv_0_lt_compat, lt_0_INR. simpl. lia.
Qed.

Lemma compute_gradient_magnitude_inv {Adam Base} (env : Collaborators Adam Base)
    policy_batch expert_batch self g magnitude self' g' :
  compute_gradient_magnitude env policy_batch expert_batch self g
    = Ok (magnitude, self', g') →
  0 <= magnitude.
Proof.
  intros H. unfold compute_gradient_magnitude in H.
  apply bind_inv in H as (groups & s1 & g1 & _ & H).
  apply bind_inv in H as ([s2 g2] & s3 & g3 & _ & H).
  apply bind_inv in H as (estimate & s4 & g4 & _ & H).
  unfold ret in H. injection H as <- _ _.
  apply mean1_nonneg, Forall_map, Forall_true. intros n.
  apply pow2_ge_0.
Qed.

(** X5. The gradient penalty [compute_gradient_magnitude] returns is never
    negative, whatever gradient the automatic differentiation gives; and on a
    network that satisfies the class invariant the call returns and leaves
    the network as it was. *)
Theorem gradient_magnitude_nonneg {Adam Base} (env : Collaborators Adam Base)
    policy_batch expert_batch self g :
  (∀ magnitude self' g',
     compute_gradient_magnitude env policy_batch expert_batch self g
       = Ok (magnitude, self', g') → 0 <= magnitude)
  ∧ (wf_network self →
     ∃ magnitude g',
       compute_gradient_magnitude env policy_batch expert_batch self g
         = Ok (magnitude, self, g')
       ∧ 0 <= magnitude).
Proof.
  split.
  - intros magnitude self' g'. apply compute_gradient_magnitude_inv.
  - intros Hwf.
    destruct (compute_gradient_magnitude_ok env policy_batch expert_batch self g Hwf)
      as (magnitude & g' & Hg).
    exists magnitude, g'. split; [exact Hg |].
    exact (compute_gradient_magnitude_inv env _ _ _ _ _ _ _ Hg).
Qed.

Lemma gradient_magnitude_nonneg_witness :
  ∃ magnitude g',
    compute_gradient_magnitude Example.env Example.policy_batch Example.expert_batch
      (Example.network true true) Example.generator
    = Ok (magnitude, Example.network true true, g')
    ∧ 0 <= magnitude.
Proof.
  apply (proj2 (gradient_magnitude_nonneg Example.env Example.policy_batch
                  Example.expert_batch (Example.network true true) Example.generator)).
  apply network_init_wf.
Defined.

(** X6. [compute_gradient_magnitude] never reads the actions of the expert
    batch: two expert batches with the same observations and the same done
    flags give the same result, with [use_actions] on or off. *)
Theorem gradient_magnitude_ignores_expert_actions {Adam Base}
    (env : Collaborators Adam Base) policy_batch expert1 expert2 self g :
  vector_obs expert1 = vector_obs expert2 →
  visual_obs expert1 = visual_obs expert2 →
  done expert1 = done expert2 →
  compute_gradient_magnitude env policy_batch expert1 self g
  = compute_gradient_magnitude env policy_batch expert2 self g.
Proof.
  intros Hvec Hvis Hdone.
  unfold compute_gradient_magnitude, interpolated_groups, get_state_encoding.
  rewrite Hvec, Hvis, Hdone. reflexivity.
Qed.

Lemma gradient_magnitude_ignores_expert_actions_witness :
  compute_gradient_magnitude Example.env Example.policy_batch Example.expert_batch
    (Example.network true false) Example.generator
  = compute_gradient_magnitude Example.env Example.policy_batch
      {| vector_obs := [[4]]; visual_obs := []; actions := [[7]]; done := [[0]] |}
      (Example.network true false) Example.generator.
Proof.
  apply (gradient_magnitude_ignores_expert_actions Example.env); reflexivity.
Defined.

(** *** Signs and ranges of the parts of the loss *)

Lemma Forall_zip_with_both {A B C} (P : A → Prop) (Q : B → Prop) (T : C → Prop)
    (f : A → B → C) (l : list A) (k : list B) :
  (∀ x y, P x → Q y → T (f x y)) →
  Forall P l → Forall Q k → Forall T (zip_with f l k).
Proof.
  intros Hf Hl. revert k. induction Hl as [| x l Hx _ IH]; intros k Hk; simpl;
    [constructor |].
  destruct Hk as [| y k Hy Hk]; constructor; auto.
Qed.

Lemma Rsum_nonpos (v : Tensor1) : Forall (fun x => x <= 0) v → Rsum v <= 0.
Proof. induction 1 as [| x v Hx _ IH]; simpl; lra. Qed.

Lemma mean1_nonpos (v : Tensor1) : Forall (fun x => x <= 0) v → mean1 v <= 0.
Proof.
  intros Hv. pose proof (Rsum_nonpos v Hv) as Hs. unfold mean1, Rdiv.
  destruct v as [| x v]; [simpl; rewrite Rinv_0; lra |].
  assert (Hi : 0 < / INR (length (x :: v)))
    by (apply Rinv_0_lt_compat, lt_0_INR; simpl; lia).
  nra.
Qed.

Lemma ln_negative x : 0 < x < 1 → ln x <= 0.
Proof. intros Hx. left. rewrite <- ln_1. apply ln_increasing; lra. Qed.

Lemma adversarial_loss_nonneg (pe ee : Tensor2) :
  Forall (Forall (fun e => 0 < e < 1)) pe →
  Forall (Forall (fun e => 0 < e < 1)) ee →
  0 <= adversarial_loss pe ee.
Proof.
  intros Hp He. unfold adversarial_loss, mean2.
  apply Ropp_0_ge_le_contravar, Rle_ge, mean1_nonpos, Forall_concat.
  pose proof EPSILON_range as Heps.
  unfold tadd, tzip.
  apply (Forall_zip_with_both (Forall (fun x => x <= 0)) (Forall (fun x => x <= 0))).
  - intros r1 r2 H1 H2.
    apply (Forall_zip_with_both (fun x => x <= 0) (fun x => x <= 0)); auto.
    intros; lra.
  - unfold tmap, muls, tmap. rewrite map_map. apply Forall_map.
    eapply Forall_impl; [exact He |]. intros row Hrow. simpl.
    rewrite map_map. apply Forall_map. eapply Forall_impl; [exact Hrow |].
    intros e Hr. simpl. apply ln_negative. nra.
  - unfold tmap, rsub, muls, tmap. rewrite !map_map. apply Forall_map.
    eapply Forall_impl; [exact Hp |]. intros row Hrow. simpl.
    rewrite !map_map. apply Forall_map. eapply Forall_impl; [exact Hrow |].
    intros e Hr. simpl. apply ln_negative. nra.
Qed.

(** X7. Without VAIL, the loss [compute_loss] returns is never negative: it
    is the binary cross entropy of estimates strictly between 0 and 1 plus ten
    times a gradient penalty that is not negative; the KL component is
    absent and the network is left as it was. *)
Theorem compute_loss_nonneg_without_vail {Adam Base} (env : Collaborators Adam Base)
    policy_batch expert_batch self g :
  wf_network self → Settings.use_vail (_settings self) = false →
  ∃ loss policy_mean expert_mean g',
    compute_loss env policy_batch expert_batch self g
      = Ok ((loss, policy_mean, expert_mean, None), self, g')
    ∧ 0 <= loss.
Proof.
  intros Hwf Hu.
  destruct (compute_estimate_ok env policy_batch true self g Hwf)
    as (pe & pmu & g1 & Hp & _ & Hpr).
  destruct (compute_estimate_ok env expert_batch true self g1 Hwf)
    as (ee & emu & g2 & He & _ & Her).
  destruct (compute_loss_run env _ _ _ _ _ _ _ _ _ _ Hwf Hp He)
    as (kl & self' & magnitude & g3 & Hg & Hl & Hs & Hk).
  destruct kl as [k |];
    [rewrite Hu in Hk; discriminate (proj1 Hk (ex_intro _ k eq_refl)) |].
  subst self'. do 4 eexists. split; [exact Hl |].
  pose proof (adversarial_loss_nonneg pe ee Hpr Her).
  pose proof (compute_gradient_magnitude_inv env _ _ _ _ _ _ _ Hg).
  unfold gradient_penalty_weight. lra.
Qed.

Lemma compute_loss_nonneg_without_vail_witness :
  ∃ loss policy_mean expert_mean g',
    compute_loss Example.env Example.policy_batch Example.expert_batch
      (Example.network true false) Example.generator
    = Ok ((loss, policy_mean, expert_mean, None), Example.network true false, g')
    ∧ 0 <= loss.
Proof.
  apply (compute_loss_nonneg_without_vail Example.env Example.policy_batch
           Example.expert_batch (Example.network true false) Example.generator).
  - apply network_init_wf.
  - reflexivity.
Defined.

Lemma ln_below_line x : 0 < x → 1 + ln x <= x.
Proof. intros Hx. pose proof (exp_ineq1_le (ln x)) as H. now rewrite exp_ln in H. Qed.

Lemma kl_row_nonpos (sigma xrow yrow : Tensor1) :
  Forall (fun s => s <> 0) sigma →
  Forall (fun x => 0 <= x) xrow → Forall (fun y => 0 <= y) yrow →
  Forall (fun d => d <= 0)
    (zip_with Rminus
       (zip_with Rminus
          (zip_with Rminus (map (fun s => 1 + ln (s ^ 2)) sigma) xrow) yrow)
       (map (fun s => s ^ 2) sigma)).
Proof.
  intros Hs. revert xrow yrow.
  induction Hs as [| s sigma Hs _ IH]; intros xrow yrow Hx Hy; simpl; [constructor |].
  destruct Hx as [| x xrow Hx Hxs]; [constructor |].
  destruct Hy as [| y yrow Hy Hys]; [constructor |].
  simpl. constructor; [| apply IH; assumption].
  assert (Hpos : 0 < s * (s * 1))
    by (destruct (Rtotal_order s 0) as [Hn | [Hz | Hp]]; [nra | contradiction | nra]).
  pose proof (ln_below_line (s * (s * 1)) Hpos). lra.
Qed.

Lemma half_square_nonneg (t : Tensor2) :
  Forall (Forall (fun x => 0 <= x)) (smul 0.5 (square t)).
Proof.
  unfold smul, square, tmap. rewrite map_map. apply Forall_map, Forall_true.
  intros row. simpl. rewrite map_map. apply Forall_map, Forall_true. intros x.
  simpl. nra.
Qed.

Lemma kl_divergence_nonneg (sigma : Tensor1) (expert_mu policy_mu : Tensor2) :
  Forall (fun s => s <> 0) sigma → 0 <= kl_divergence sigma expert_mu policy_mu.
Proof.
  intros Hs. unfold kl_divergence.
  apply mean1_nonneg. rewrite Forall_map. unfold sum_dim1. rewrite Forall_map.
  pose proof (half_square_nonneg expert_mu) as Hx.
  pose proof (half_square_nonneg policy_mu) as Hy.
  revert Hx Hy. generalize (smul 0.5 (square expert_mu)) (smul 0.5 (square policy_mu)).
  intros X Y HX. revert Y.
  induction HX as [| xrow X Hxrow _ IH]; intros Y HY; simpl; [constructor |].
  destruct HY as [| yrow Y Hyrow HY]; simpl; [constructor |].
  constructor; [| apply IH, HY].
  pose proof (Rsum_nonpos _ (kl_row_nonpos sigma xrow yrow Hs Hxrow Hyrow)) as Hrow.
  apply Ropp_0_ge_le_contravar, Rle_ge. exact Hrow.
Qed.

(** With VAIL, the KL loss [compute_loss] returns is the KL divergence of
    lines 193 to 202 at the network's [z_sigma]. *)
Lemma compute_loss_kl_inv {Adam Base} (env : Collaborators Adam Base)
    policy_batch expert_batch self g v loss policy_mean expert_mean kl self' g' :
  vail self = Some v →
  compute_loss env policy_batch expert_batch self g
    = Ok ((loss, policy_mean, expert_mean, Some kl), self', g') →
  ∃ expert_mu policy_mu, kl = kl_divergence (z_sigma v) expert_mu policy_mu.
Proof.
  intros Hv H. unfold compute_loss in H.
  apply bind_inv in H as ([pe pmu] & s1 & g1 & H1 & H). cbv beta iota in H.
  apply bind_inv in H as ([ee emu] & s2 & g2 & H2 & H). cbv beta iota in H.
  apply compute_estimate_frame in H1. apply compute_estimate_frame in H2. subst s2 s1.
  apply bind_inv in H as (settings & s3 & g3 & H3 & H).
  unfold gets in H3. injection H3 as <- <- <-.
  apply bind_inv in H as ([l k] & s4 & g4 & H4 & H). cbv beta iota in H.
  apply bind_inv in H as (l2 & s5 & g5 & H5 & H).
  unfold ret in H. injection H as _ _ _ -> _ _.
  destruct (Settings.use_vail (_settings self)).
  - apply bind_inv in H4 as (sigma & s6 & g6 & Hsig & H4).
    unfold attr in Hsig. rewrite Hv in Hsig. injection Hsig as <- _ _.
    apply bind_inv in H4 as (mu1 & ? & ? & _ & H4).
    apply bind_inv in H4 as (mu2 & ? & ? & _ & H4).
    apply bind_inv in H4 as (b & ? & ? & _ & H4).
    apply bind_inv in H4 as (u & ? & ? & _ & H4).
    unfold ret in H4. injection H4 as _ <- _ _. eauto.
  - unfold ret in H4. discriminate H4.
Qed.

(** X8. With VAIL on and no entry of [z_sigma] equal to zero, the KL loss
    [compute_loss] returns is never negative. *)
Theorem compute_loss_kl_nonneg {Adam Base} (env : Collaborators Adam Base)
    policy_batch expert_batch self g v :
  wf_network self → vail self = Some v → Forall (fun s => s <> 0) (z_sigma v) →
  ∃ loss policy_mean expert_mean kl self' g',
    compute_loss env policy_batch expert_batch self g
      = Ok ((loss, policy_mean, expert_mean, Some kl), self', g')
    ∧ 0 <= kl.
Proof.
  intros Hwf Hv Hs.
  destruct (compute_loss_beta env policy_batch expert_batch self g v Hwf Hv)
    as (loss & pm & em & kl & self' & g' & Hl & _).
  exists loss, pm, em, kl, self', g'. split; [exact Hl |].
  destruct (compute_loss_kl_inv env _ _ _ _ _ _ _ _ _ _ _ Hv Hl) as (emu & pmu & ->).
  apply kl_divergence_nonneg, Hs.
Qed.

Lemma compute_loss_kl_nonneg_witness :
  ∃ loss policy_mean expert_mean kl self' g',
    compute_loss Example.env Example.policy_batch Example.expert_batch
      (Example.network true true) Example.generator
    = Ok ((loss, policy_mean, expert_mean, Some kl), self', g')
    ∧ 0 <= kl.
Proof.
  apply (compute_loss_kl_nonneg Example.env Example.policy_batch Example.expert_batch
           (Example.network true true) Example.generator (mkVail (replicate z_size 1) _ 0.0)
           (network_init_wf _ _ _ _) eq_refl).
  apply Forall_replicate. lra.
Defined.

(** X9. With VAIL on and beta not negative before the call, [compute_loss]
    moves beta towards the constraint: beta does not decrease when the KL loss
    it returns is at least 0.5, does not increase when it is at most 0.5, and
    stays when it is 0.5. *)
Theorem beta_moves_with_kl {Adam Base} (env : Collaborators Adam Base)
    policy_batch expert_batch self g v :
  wf_network self → vail self = Some v → 0 <= beta v →
  ∃ loss policy_mean expert_mean kl self' g' b,
    compute_loss env policy_batch expert_batch self g
      = Ok ((loss, policy_mean, expert_mean, Some kl), self', g')
    ∧ beta_of self' = Some b
    ∧ (0.5 <= kl → beta v <= b)
    ∧ (kl <= 0.5 → b <= beta v)
    ∧ (kl = 0.5 → b = beta v).
Proof.
  intros Hwf Hv Hb.
  destruct (compute_loss_beta env policy_batch expert_batch self g v Hwf Hv)
    as (loss & pm & em & kl & self' & g' & Hl & _ & Hbeta).
  exists loss, pm, em, kl, self', g', (Rmax 0 (beta v + 0.0005 * (kl - 0.5))).
  split; [exact Hl |]. split; [exact Hbeta |].
  unfold Rmax. destruct (Rle_dec 0 (beta v + 0.0005 * (kl - 0.5))); repeat split; lra.
Qed.

Lemma beta_moves_with_kl_witness :
  ∃ loss policy_mean expert_mean kl self' g' b,
    compute_loss Example.env Example.policy_batch Example.expert_batch
      (Example.network true true) Example.generator
    = Ok ((loss, policy_mean, expert_mean, Some kl), self', g')
    ∧ beta_of self' = Some b
    ∧ (0.5 <= kl → 0.0 <= b)
    ∧ (kl <= 0.5 → b <= 0.0)
    ∧ (kl = 0.5 → b = 0.0).
Proof.
  apply (beta_moves_with_kl Example.env Example.policy_batch Example.expert_batch
           (Example.network true true) Example.generator (mkVail (replicate z_size 1) _ 0.0)
           (network_init_wf _ _ _ _) eq_refl).
  simpl. lra.
Defined.

(** *** What the calls leave unchanged *)

(** X10. [compute_loss] assigns to nothing but beta: the tensors the
    optimizer trains, the settings, the specs and the action flattener of the
    network are the same after the call, and without VAIL the whole network
    is. *)
Theorem compute_loss_frame {Adam Base} (env : Collaborators Adam Base)
    policy_batch expert_batch self g :
  wf_network self →
  ∃ result self' g',
    compute_loss env policy_batch expert_batch self g = Ok (result, self', g')
    ∧ parameters self' = parameters self
    ∧ _settings self' = _settings self
    ∧ _policy_specs self' = _policy_specs self
    ∧ _action_flattener self' = _action_flattener self
    ∧ use_vail self' = use_vail self
    ∧ (Settings.use_vail (_settings self) = false → self' = self).
Proof.
  intros Hwf.
  destruct (compute_loss_ok env policy_batch expert_batch self g Hwf)
    as (loss & pm & em & kl & self' & g' & Hl & _ & _ & Hk & Hs).
  exists (loss, pm, em, kl), self', g'. split; [exact Hl |].
  rewrite Hs. destruct kl as [k |], (vail self) as [v |]; simpl;
    rewrite ?parameters_set_beta; repeat split; try reflexivity.
  intros Hu. rewrite Hu in Hk. discriminate (proj1 Hk (ex_intro _ k eq_refl)).
Qed.

Lemma compute_loss_frame_witness :
  ∃ result self' g',
    compute_loss Example.env Example.policy_batch Example.expert_batch
      (Example.network true true) Example.generator = Ok (result, self', g')
    ∧ parameters self' = parameters (Example.network true true)
    ∧ _settings self' = _settings (Example.network true true)
    ∧ _policy_specs self' = _policy_specs (Example.network true true)
    ∧ _action_flattener self' = _action_flattener (Example.network true true)
    ∧ use_vail self' = use_vail (Example.network true true)
    ∧ (Settings.use_vail (_settings (Example.network true true)) = false →
       self' = Example.network true true).
Proof.
  apply (compute_loss_frame Example.env Example.policy_batch Example.expert_batch
           (Example.network true true) Example.generator).
  apply network_init_wf.
Defined.

Lemma optimizer_step_frame {Adam Base} (env : Collaborators Adam Base) loss net
    (p : GAILRewardProvider.t Adam Base) :
  let p' := GAILRewardProvider.optimizer_step env loss (GAILRewardProvider.set_network net p) in
  GAILRewardProvider._demo_buffer p' = GAILRewardProvider._demo_buffer p
  ∧ GAILRewardProvider._ignore_done p' = GAILRewardProvider._ignore_done p
  ∧ GAILRewardProvider.base p' = GAILRewardProvider.base p
  ∧ _settings (GAILRewardProvider._discriminator_network p') = _settings net.
Proof.
  unfold GAILRewardProvider.optimizer_step. simpl.
  destruct (Adam_step env _ _ loss) as [o w]. simpl. auto.
Qed.

Lemma update_frame_inv {Adam Base} (env : Collaborators Adam Base) mini_batch
    (p : GAILRewardProvider.t Adam Base) g stats p' g' :
  wf_provider p →
  GAILRewardProvider.update env mini_batch p g = Ok (stats, p', g') →
  GAILRewardProvider._demo_buffer p' = GAILRewardProvider._demo_buffer p
  ∧ GAILRewardProvider._ignore_done p' = GAILRewardProvider._ignore_done p
  ∧ GAILRewardProvider.base p' = GAILRewardProvider.base p
  ∧ _settings (GAILRewardProvider._discriminator_network p')
    = _settings (GAILRewardProvider._discriminator_network p)
  ∧ wf_provider p'.
Proof.
  intros Hwf H.
  destruct (update_inv env _ _ _ _ _ _ H) as (eb & g0 & r & net' & g1 & _ & Hl & ->).
  match goal with
  | |- context [GAILRewardProvider.optimizer_step env ?f _] => set (loss_of := f)
  end.
  destruct (compute_loss_ok env mini_batch eb _ g0 Hwf)
    as (? & ? & ? & ? & net'' & ? & Hl' & Hwf' & Hset & _).
  rewrite Hl in Hl'. injection Hl' as _ <- _.
  destruct (optimizer_step_frame env loss_of net' p) as (Hd & Hi & Hb & Hs).
  split; [exact Hd |]. split; [exact Hi |]. split; [exact Hb |].
  split; [rewrite Hs; exact Hset | apply optimizer_step_wf; exact Hwf'].
Qed.

(** X11. [update] changes the network and the optimizer only: whenever it
    returns on a provider that satisfies the class invariant, the
    demonstration buffer, the ignore-done flag, the attributes of the base
    class and the settings are the same as before, and the invariant holds
    again. *)
Theorem update_frame {Adam Base} (env : Collaborators Adam Base) mini_batch
    (p : GAILRewardProvider.t Adam Base) g stats p' g' :
  wf_provider p →
  GAILRewardProvider.update env mini_batch p g = Ok (stats, p', g') →
  GAILRewardProvider._demo_buffer p' = GAILRewardProvider._demo_buffer p
  ∧ GAILRewardProvider._ignore_done p' = GAILRewardProvider._ignore_done p
  ∧ GAILRewardProvider.base p' = GAILRewardProvider.base p
  ∧ _settings (GAILRewardProvider._discriminator_network p')
    = _settings (GAILRewardProvider._discriminator_network p)
  ∧ wf_provider p'.
Proof. apply update_frame_inv. Qed.

Lemma update_frame_witness :
  ∃ stats p' g',
    GAILRewardProvider.update Example.env Example.policy_batch
      (Example.provider true true) Example.generator = Ok (stats, p', g')
    ∧ GAILRewardProvider._demo_buffer p'
      = GAILRewardProvider._demo_buffer (Example.provider true true)
    ∧ GAILRewardProvider._ignore_done p' = true.
Proof.
  destruct (update_run Example.env Example.policy_batch (Example.provider true true)
              Example.generator (provider_init_wf _ _ _ _))
    as (? & ? & ? & ? & ? & ? & ? & g' & p' & _ & _ & Hu & _).
  destruct (update_frame Example.env _ _ _ _ _ _ (provider_init_wf _ _ _ _) Hu)
    as (Hd & Hi & _).
  eexists. exists p', g'. split; [exact Hu |]. split; [exact Hd | exact Hi].
Defined.

(** *** A provider from its construction on *)

Lemma updates_ok {Adam Base} (env : Collaborators Adam Base) batches :
  ∀ (p : GAILRewardProvider.t Adam Base) g,
    wf_provider p →
    ∃ stats p' g',
      for_each batches (GAILRewardProvider.update env) p g = Ok (stats, p', g')
      ∧ length stats = length batches
      ∧ wf_provider p'
      ∧ GAILRewardProvider._demo_buffer p' = GAILRewardProvider._demo_buffer p
      ∧ GAILRewardProvider._ignore_done p' = GAILRewardProvider._ignore_done p
      ∧ GAILRewardProvider.base p' = GAILRewardProvider.base p
      ∧ _settings (GAILRewardProvider._discriminator_network p')
        = _settings (GAILRewardProvider._discriminator_network p).
Proof.
  induction batches as [| mb batches IH]; intros p g Hwf.
  - exists [], p, g. simpl. auto 10.
  - destruct (update_run env mb p g Hwf)
      as (? & ? & ? & ? & ? & ? & ? & g1 & p1 & _ & _ & Hu & Hwf1 & _).
    destruct (update_frame_inv env _ _ _ _ _ _ Hwf Hu) as (Hd & Hi & Hb & Hs & _).
    destruct (IH p1 g1 Hwf1)
      as (rest & p' & g' & Hr & Hlen & Hwf' & Hd' & Hi' & Hb' & Hs').
    eexists (_ :: rest). exists p', g'.
    split; [| split; [| split; [| split; [| split; [| split]]]]].
    + simpl. rewrite (bind_Ok _ _ _ _ _ _ _ Hu), (bind_Ok _ _ _ _ _ _ _ Hr). reflexivity.
    + simpl. now rewrite Hlen.
    + exact Hwf'.
    + now rewrite Hd'.
    + now rewrite Hi'.
    + now rewrite Hb'.
    + now rewrite Hs'.
Qed.

Lemma provider_init_attributes {Adam Base} (env : Collaborators Adam Base)
    specs settings g :
  let p := fst (GAILRewardProvider.__init__ env specs settings g) in
  GAILRewardProvider._demo_buffer p
    = snd (demo_to_buffer env (Settings.demo_path settings) 1%nat specs)
  ∧ GAILRewardProvider._ignore_done p = true
  ∧ GAILRewardProvider.base p = BaseRewardProvider_init env specs settings
  ∧ _settings (GAILRewardProvider._discriminator_network p) = settings.
Proof.
  unfold GAILRewardProvider.__init__, DiscriminatorNetwork.__init__.
  destruct (NetworkBody_init env _ _ g) as [body g1].
  destruct (linear_layer env _ _ None None g1) as [l1 g2].
  destruct (linear_layer env _ _ None None g2) as [l2 g3].
  destruct (Settings.use_vail settings).
  - destruct (linear_layer env _ z_size _ _ g3) as [mu g4].
    destruct (linear_layer env _ 1%nat None None g4) as [est g5].
    destruct (demo_to_buffer env _ 1%nat specs) as [s b]. simpl. auto.
  - destruct (linear_layer env _ 1%nat None None g3) as [est g5].
    destruct (demo_to_buffer env _ 1%nat specs) as [s b]. simpl. auto.
Qed.

(** X12. What [__init__] sets stays: after any sequence of [update] calls
    that returns, on the provider [__init__] constructed for any spec and
    settings, there is one statistics mapping per call, the demonstration
    buffer is the one loaded at construction with sequence length 1, the
    ignore-done flag is true, the attributes of the base class and the
    settings of the network are those of the construction, and the class
    invariant holds. *)
Theorem constructed_provider_invariant {Adam Base} (env : Collaborators Adam Base)
    specs settings g0 batches g stats p' g' :
  for_each batches (GAILRewardProvider.update env)
    (fst (GAILRewardProvider.__init__ env specs settings g0)) g = Ok (stats, p', g') →
  length stats = length batches
  ∧ GAILRewardProvider._demo_buffer p'
    = snd (demo_to_buffer env (Settings.demo_path settings) 1%nat specs)
  ∧ GAILRewardProvider._ignore_done p' = true
  ∧ GAILRewardProvider.base p' = BaseRewardProvider_init env specs settings
  ∧ _settings (GAILRewardProvider._discriminator_network p') = settings
  ∧ wf_provider p'.
Proof.
  intros H.
  destruct (updates_ok env batches _ g (provider_init_wf env specs settings g0))
    as (stats0 & p0 & g1 & Hr & Hlen & Hwf & Hd & Hi & Hb & Hs).
  rewrite H in Hr. injection Hr as <- <- <-.
  destruct (provider_init_attributes env specs settings g0) as (Hd0 & Hi0 & Hb0 & Hs0).
  rewrite Hd, Hi, Hb, Hs. auto 10.
Qed.

Lemma constructed_provider_invariant_witness :
  ∃ stats p' g',
    for_each [Example.policy_batch; Example.expert_batch]
      (GAILRewardProvider.update Example.env) (Example.provider true true)
      Example.generator = Ok (stats, p', g')
    ∧ length stats = 2%nat
    ∧ GAILRewardProvider._demo_buffer p' = Example.demo 1
    ∧ GAILRewardProvider._ignore_done p' = true
    ∧ _settings (GAILRewardProvider._discriminator_network p') = Example.settings true true.
Proof.
  destruct (updates_ok Example.env [Example.policy_batch; Example.expert_batch]
              (Example.provider true true) Example.generator (provider_init_wf _ _ _ _))
    as (stats & p' & g' & Hr & _).
  destruct (constructed_provider_invariant Example.env Example.specs
              (Example.settings true true) Example.generator _ _ _ _ _ Hr)
    as (Hlen & Hd & Hi & _ & Hs & _).
  exists stats, p', g'. auto.
Defined.

Lemma network_init_vail {Adam Base} (env : Collaborators Adam Base) specs settings g :
  Settings.use_vail settings = true →
  ∃ mu_layer,
    vail (fst (DiscriminatorNetwork.__init__ env specs settings g))
    = Some (mkVail (replicate z_size 1) mu_layer initial_beta).
Proof.
  intros Hu. unfold DiscriminatorNetwork.__init__.
  destruct (NetworkBody_init env _ _ g) as [body g1].
  destruct (linear_layer env _ _ None None g1) as [l1 g2].
  destruct (linear_layer env _ _ None None g2) as [l2 g3].
  rewrite Hu.
  destruct (linear_layer env _ z_size _ _ g3) as [mu g4].
  destruct (linear_layer env _ 1%nat None None g4) as [est g5].
  simpl. eauto.
Qed.

(** X13. The first [compute_loss] on a freshly constructed VAIL network:
    beta starts at 0 and [z_sigma] at ones, so that the loss returned is the
    binary cross entropy of the two noisy estimates plus ten times the
    gradient penalty of the two batches, with no VAIL term, and is not
    negative; the KL loss returned is that of the two latent means at a
    standard deviation of one and is not negative; and beta becomes
    [max(0, 0.0005 * (kl - 0.5))]. *)
Theorem first_compute_loss {Adam Base} (env : Collaborators Adam Base)
    specs settings g0 policy_batch expert_batch g :
  Settings.use_vail settings = true →
  ∃ pe pmu g1 ee emu g2 magnitude g3 self',
    compute_estimate env policy_batch true
      (fst (DiscriminatorNetwork.__init__ env specs settings g0)) g
    = Ok ((pe, Some pmu), fst (DiscriminatorNetwork.__init__ env specs settings g0), g1)
    ∧ compute_estimate env expert_batch true
        (fst (DiscriminatorNetwork.__init__ env specs settings g0)) g1
      = Ok ((ee, Some emu), fst (DiscriminatorNetwork.__init__ env specs settings g0), g2)
    ∧ compute_gradient_magnitude env policy_batch expert_batch
        (fst (DiscriminatorNetwork.__init__ env specs settings g0)) g2
      = Ok (magnitude, fst (DiscriminatorNetwork.__init__ env specs settings g0), g3)
    ∧ compute_loss env policy_batch expert_batch
        (fst (DiscriminatorNetwork.__init__ env specs settings g0)) g
      = Ok ((adversarial_loss pe ee + 10 * magnitude, mean2 pe, mean2 ee,
             Some (kl_divergence (replicate z_size 1) emu pmu)), self', g3)
    ∧ 0 <= adversarial_loss pe ee + 10 * magnitude
    ∧ 0 <= kl_divergence (replicate z_size 1) emu pmu
    ∧ beta_of self'
      = Some (Rmax 0 (0.0005 * (kl_divergence (replicate z_size 1) emu pmu - 0.5))).
Proof.
  intros Hu.
  pose proof (network_init_wf env specs settings g0) as Hwf.
  destruct (network_init_vail env specs settings g0 Hu) as [mu Hv].
  set (net := fst (DiscriminatorNetwork.__init__ env specs settings g0)) in *.
  destruct (compute_loss_vail env policy_batch expert_batch net g _ Hwf Hv)
    as (pe & pmu & g1 & ee & emu & g2 & magnitude & g3 & Hp & He & Hg & Hl).
  cbn [z_sigma beta] in Hl.
  set (kl := kl_divergence (replicate z_size 1) emu pmu) in *.
  assert (Hloss : adversarial_loss pe ee + initial_beta * (kl - mutual_information)
                  + gradient_penalty_weight * magnitude
                  = adversarial_loss pe ee + 10 * magnitude)
    by (unfold initial_beta, gradient_penalty_weight; lra).
  rewrite Hloss in Hl.
  exists pe, pmu, g1, ee, emu, g2, magnitude, g3. eexists.
  split; [exact Hp |]. split; [exact He |]. split; [exact Hg |]. split; [exact Hl |].
  split; [| split].
  - apply compute_estimate_inv in Hp as (Hpr & _ & _).
    apply compute_estimate_inv in He as (Her & _ & _).
    pose proof (adversarial_loss_nonneg pe ee Hpr Her).
    pose proof (compute_gradient_magnitude_inv env _ _ _ _ _ _ _ Hg). lra.
  - apply kl_divergence_nonneg. apply Forall_replicate. cbv beta. lra.
  - rewrite (beta_of_set_beta _ _ _ Hv), beta_rule. do 2 f_equal.
    unfold kl, initial_beta. lra.
Qed.

Lemma first_compute_loss_witness :
  ∃ pe pmu ee emu magnitude self' g',
    compute_loss Example.env Example.policy_batch Example.expert_batch
      (Example.network true true) Example.generator
    = Ok ((adversarial_loss pe ee + 10 * magnitude, mean2 pe, mean2 ee,
           Some (kl_divergence (replicate z_size 1) emu pmu)), self', g')
    ∧ 0 <= adversarial_loss pe ee + 10 * magnitude
    ∧ 0 <= kl_divergence (replicate z_size 1) emu pmu
    ∧ beta_of self'
      = Some (Rmax 0 (0.0005 * (kl_divergence (replicate z_size 1) emu pmu - 0.5))).
Proof.
  destruct (first_compute_loss Example.env Example.specs (Example.settings true true)
              Example.generator Example.policy_batch Example.expert_batch Example.generator
              eq_refl)
    as (pe & pmu & g1 & ee & emu & g2 & magnitude & g3 & self' & _ & _ & _ & H).
  exists pe, pmu, ee, emu, magnitude, self', g3. exact H.
Defined.

(** *** The reported mean estimates *)

Lemma Rsum_unit_interval (v : Tensor1) :
  Forall (fun e => 0 < e < 1) v → 0 <= Rsum v <= INR (length v).
Proof.
  induction 1 as [| x v Hx Hv IH]; [simpl; lra |].
  change (length (x :: v)) with (S (length v)). rewrite S_INR. simpl. lra.
Qed.

Lemma mean1_unit_interval (v : Tensor1) :
  Forall (fun e => 0 < e < 1) v → v ≠ [] → 0 <= mean1 v <= 1.
Proof.
  intros Hv Hne. pose proof (Rsum_unit_interval v Hv) as [Hl Hu].
  assert (Hn : 0 < INR (length v)).
  { destruct v; [contradiction |]. apply lt_0_INR. simpl. lia. }
  pose proof (Rinv_0_lt_compat _ Hn) as Hi.
  assert (Hm : INR (length v) * / INR (length v) = 1) by (apply Rinv_r; lra).
  unfold mean1, Rdiv. split; nra.
Qed.

(** X14. The mean estimates [compute_loss] returns, which [update] reports as
    the policy estimate and the expert estimate, are the means of the two
    noisy estimates and lie between 0 and 1 whenever the batches give at
    least one estimate each. *)
Theorem mean_estimates_range {Adam Base} (env : Collaborators Adam Base)
    policy_batch expert_batch self g pe pmu g1 ee emu g2 :
  wf_network self →
  compute_estimate env policy_batch true self g = Ok ((pe, pmu), self, g1) →
  compute_estimate env expert_batch true self g1 = Ok ((ee, emu), self, g2) →
  concat pe ≠ [] → concat ee ≠ [] →
  ∃ loss policy_mean expert_mean kl self' g',
    compute_loss env policy_batch expert_batch self g
      = Ok ((loss, policy_mean, expert_mean, kl), self', g')
    ∧ policy_mean = mean2 pe ∧ expert_mean = mean2 ee
    ∧ 0 <= policy_mean <= 1 ∧ 0 <= expert_mean <= 1.
Proof.
  intros Hwf Hp He Hnp Hne.
  destruct (compute_loss_run env _ _ _ _ _ _ _ _ _ _ Hwf Hp He)
    as (kl & self' & magnitude & g3 & _ & Hl & _ & _).
  apply compute_estimate_inv in Hp as (Hpr & _ & _).
  apply compute_estimate_inv in He as (Her & _ & _).
  do 6 eexists. split; [exact Hl |]. split; [reflexivity |]. split; [reflexivity |].
  split; apply mean1_unit_interval; try assumption; apply Forall_concat; assumption.
Qed.

Lemma mean_estimates_range_witness :
  ∃ loss policy_mean expert_mean kl self' g',
    compute_loss Example.env Example.policy_batch Example.expert_batch
      (Example.network true false) Example.generator
    = Ok ((loss, policy_mean, expert_mean, kl), self', g')
    ∧ 0 <= policy_mean <= 1 ∧ 0 <= expert_mean <= 1.
Proof.
  destruct (mean_estimates_range Example.env Example.policy_batch Example.expert_batch
              (Example.network true false) Example.generator _ _ _ _ _ _
              (network_init_wf _ _ _ _)
              (compute_estimate_plain Example.env Example.policy_batch true
                 (Example.network true false) Example.generator eq_refl)
              (compute_estimate_plain Example.env Example.expert_batch true
                 (Example.network true false) Example.generator eq_refl))
    as (loss & pm & em & kl & self' & g' & Hl & _ & _ & Hp & He).
  - discriminate.
  - discriminate.
  - exists loss, pm, em, kl, self', g'. auto.
Defined.

(** *** One reward per experience *)

Lemma length_Sequential layers (x : Tensor2) : length (Sequential layers x) = length x.
Proof. unfold Sequential. apply length_map. Qed.

Lemma length_normal (z_mu : Tensor2) std g : length (fst (normal z_mu std g)) = length z_mu.
Proof. unfold normal. simpl. apply length_imap. Qed.

Lemma length_encoder_input self mini_batch n :
  length (state_encoding_of self mini_batch) = n →
  (Settings.use_actions (_settings self) = true →
   length (flattener_forward (_action_flattener self) (actions mini_batch)) = n
   ∧ length (done mini_batch) = n) →
  length (encoder_input_of self mini_batch) = n.
Proof.
  intros Hs Ha. unfold encoder_input_of.
  destruct (Settings.use_actions (_settings self)); [| exact Hs].
  destruct (Ha eq_refl) as [Hf Hd]. simpl.
  rewrite !length_zip_with. lia.
Qed.

(** X16. [evaluate] returns one reward per experience: when the observation
    encoder gives N rows for the batch and, with [use_actions] on, the
    flattened actions and the done column have N rows as well, the array of
    rewards has length N. *)
Theorem evaluate_one_reward_per_experience {Adam Base} (env : Collaborators Adam Base)
    mini_batch (p : GAILRewardProvider.t Adam Base) g n :
  let net := GAILRewardProvider._discriminator_network p in
  wf_provider p →
  length (state_encoding_of net mini_batch) = n →
  (Settings.use_actions (_settings net) = true →
   length (flattener_forward (_action_flattener net) (actions mini_batch)) = n
   ∧ length (done mini_batch) = n) →
  ∃ rewards g',
    GAILRewardProvider.evaluate env mini_batch p g = Ok (rewards, p, g')
    ∧ length rewards = n.
Proof.
  intros net Hwf Hs Ha.
  pose proof (length_encoder_input net mini_batch n Hs Ha) as Hn.
  destruct (Settings.use_vail (_settings net)) eqn:Hu.
  - destruct (vail_present net Hwf Hu) as [v Hv].
    pose proof (compute_estimate_vail env mini_batch false net g v Hv Hu) as He.
    cbv zeta in He. rewrite (evaluate_run env _ _ _ _ _ _ He).
    do 2 eexists. split; [reflexivity |].
    unfold squeeze_dim1, estimator_forward.
    rewrite !length_map, length_Sequential, length_normal, length_map.
    unfold hidden_of, encoder_forward. now rewrite length_Sequential.
  - pose proof (compute_estimate_plain env mini_batch false net g Hu) as He.
    rewrite (evaluate_run env _ _ _ _ _ _ He).
    do 2 eexists. split; [reflexivity |].
    unfold squeeze_dim1, estimator_forward.
    rewrite !length_map, length_Sequential.
    unfold hidden_of, encoder_forward. now rewrite length_Sequential.
Qed.

Lemma evaluate_one_reward_per_experience_witness :
  ∃ rewards g',
    GAILRewardProvider.evaluate Example.env Example.policy_batch
      (Example.provider true true) Example.generator
    = Ok (rewards, Example.provider true true, g')
    ∧ length rewards = 1%nat.
Proof.
  apply (evaluate_one_reward_per_experience Example.env Example.policy_batch
           (Example.provider true true) Example.generator 1).
  - apply provider_init_wf.
  - reflexivity.
  - intros _. split; reflexivity.
Defined.

(** *** A vanishing gradient *)

Lemma Rsum_zero_squares (row : Tensor1) : Rsum (map (fun x => x ^ 2) (map (fun _ => 0) row)) = 0.
Proof.
  induction row as [| x row IH]; [reflexivity |].
  simpl. simpl in IH. rewrite IH. lra.
Qed.

Lemma mean1_constant {A} (c : R) (l : list A) : l ≠ [] → mean1 (map (fun _ => c) l) = c.
Proof.
  intros Hne. unfold mean1. rewrite length_map.
  assert (Hs : Rsum (map (fun _ => c) l) = INR (length l) * c).
  { clear Hne. induction l as [| x l IH]; [simpl; lra |].
    change (length (x :: l)) with (S (length l)). rewrite S_INR. simpl. rewrite IH. lra. }
  rewrite Hs. field. apply not_0_INR. destruct l; [contradiction | discriminate].
Qed.

Lemma sqrt_epsilon_range : 0.0003 < sqrt 1e-7 < 0.0004.
Proof.
  assert (H0 : 0 <= 1e-7) by lra.
  pose proof (sqrt_sqrt _ H0) as Hs. pose proof (sqrt_pos 1e-7) as Hp.
  split.
  - destruct (Rlt_le_dec 0.0003 (sqrt 1e-7)) as [H | H]; [exact H | nra].
  - destruct (Rlt_le_dec (sqrt 1e-7) 0.0004) as [H | H]; [exact H | nra].
Qed.

Lemma imap_ignore {A B} (g : A → B) (l : list A) : imap (fun _ => g) l = map g l.
Proof. induction l as [| a l IH]; [reflexivity |]. simpl. f_equal. exact IH. Qed.

(** Central differences of a function that takes one value on all tensors of
    as many rows as [x] vanish at [x]. *)
Lemma central_difference_constant (f : Tensor2 → R) (x : Tensor2) :
  (∀ y z, length y = length x → length z = length x → f y = f z) →
  Example.central_difference f x = tmap (fun _ => 0) x.
Proof.
  intros Hf. unfold Example.central_difference, tmap.
  rewrite <- (imap_ignore (map (fun _ : R => 0)) x). apply imap_ext. intros i row _.
  rewrite <- (imap_ignore (fun _ : R => 0) row). apply imap_ext. intros j v _. simpl.
  rewrite (Hf (Example.bump i j 1 x) (Example.bump i j (-1) x))
    by (unfold Example.bump; apply length_imap).
  lra.
Qed.

(** X18. Where the gradient of the estimate vanishes at the interpolated
    input, the gradient penalty is not 0 but lies between 0.999 and 1, for
    every interpolated input that is not empty: the epsilon under the square
    root makes the norm of a zero gradient [sqrt(1e-7)], about 0.0003, and
    the penalty is the square of its distance from 1. *)
Theorem gradient_magnitude_at_zero_gradient {Adam Base} (env : Collaborators Adam Base)
    policy_batch expert_batch self g groups g1 :
  wf_network self →
  interpolated_groups policy_batch expert_batch self g = Ok (groups, self, g1) →
  cat_dim1 groups ≠ [] →
  autograd_grad env (fun x => value_or 0 (interpolated_estimate env x self g1))
    (cat_dim1 groups)
  = tmap (fun _ => 0) (cat_dim1 groups) →
  ∃ magnitude g',
    compute_gradient_magnitude env policy_batch expert_batch self g
    = Ok (magnitude, self, g')
    ∧ 0.999 < magnitude < 1.
Proof.
  intros Hwf Hg Hne Hgrad.
  unfold compute_gradient_magnitude.
  rewrite (bind_Ok _ _ _ _ _ _ _ Hg).
  unfold snapshot at 1. unfold bind at 1.
  destruct (interpolated_estimate_ok env (cat_dim1 groups) self g1 Hwf) as (e & g2 & He).
  rewrite (bind_Ok _ _ _ _ _ _ _ He). unfold ret.
  rewrite Hgrad. unfold square, sum_dim1, tmap. rewrite !map_map.
  eexists. exists g2. split; [reflexivity |].
  rewrite (map_ext _ (fun _ => (sqrt 1e-7 - 1) ^ 2)).
  - rewrite (mean1_constant _ _ Hne). pose proof sqrt_epsilon_range. nra.
  - intros row. rewrite Rsum_zero_squares. unfold EPSILON. do 3 f_equal. lra.
Qed.

Lemma gradient_magnitude_at_zero_gradient_witness :
  ∃ magnitude g',
    compute_gradient_magnitude Example.flat_env Example.policy_batch Example.expert_batch
      Example.flat_network Example.generator
    = Ok (magnitude, Example.flat_network, g')
    ∧ 0.999 < magnitude < 1.
Proof.
  eapply (gradient_magnitude_at_zero_gradient Example.flat_env Example.policy_batch
            Example.expert_batch Example.flat_network Example.generator).
  - apply network_init_wf.
  - apply (interpolated_groups_actions Example.policy_batch Example.expert_batch
             Example.flat_network Example.generator eq_refl).
  - discriminate.
  - apply central_difference_constant. intros y z Hy Hz.
    destruct y as [| ry [| ? ?]]; try discriminate Hy.
    destruct z as [| rz [| ? ?]]; try discriminate Hz.
    reflexivity.
Defined.
